(** * Merge-request dashboard: URL resolver, platform adapters and the
      Telegram notification gateway

    A shallow embedding of
    - [parseMRUrl], [fetchGitHubPR], [fetchGitLabMR], [generateDiffHtml] and
      [handleFetchDiff] of the [CodeDiff] page, and
    - [getStatusEmoji], [getSeverityEmoji], [escapeHtml],
      [buildTelegramMessage] and the request handler of the
      [send-telegram-notification] edge function,
    together with the properties the specification states about them. *)

From Stdlib Require Import List NArith ZArith Lia Bool String Ascii.
From Stdlib Require Import DecimalString.
Import ListNotations.

Set Implicit Arguments.

(** * JavaScript strings

    A JavaScript string is a sequence of UTF-16 code units: [length],
    [substring], [charAt] and regular expressions without the [u] flag all
    work on code units.  A code unit is kept as a number. *)

Definition jschar := N.
Definition jsstring := list jschar.

(** [lit] turns a literal of the source made of ASCII characters into its code
    units. *)
Definition lit (s : string) : jsstring :=
  List.map N_of_ascii (list_ascii_of_string s).

Definition slash : jschar := 47%N.
Definition plus_sign : jschar := 43%N.
Definition minus_sign : jschar := 45%N.
Definition newline : jschar := 10%N.
Definition amp : jschar := 38%N.
Definition lt_sign : jschar := 60%N.
Definition gt_sign : jschar := 62%N.
Definition dquote : jschar := 34%N.

Definition is_digit (c : jschar) : bool := ((48 <=? c) && (c <=? 57))%N.

(** ECMAScript LineTerminator: LF, CR, LS (U+2028), PS (U+2029). *)
Definition is_line_terminator (c : jschar) : bool :=
  ((c =? 10) || (c =? 13) || (c =? 8232) || (c =? 8233))%N.

Fixpoint jseqb (a b : jsstring) : bool :=
  match a, b with
  | [], [] => true
  | x :: a', y :: b' => (x =? y)%N && jseqb a' b'
  | _, _ => false
  end.

(** [strip_prefix p s] is [Some rest] when [s = p ++ rest]. *)
Fixpoint strip_prefix (p s : jsstring) : option jsstring :=
  match p with
  | [] => Some s
  | c :: p' =>
      match s with
      | x :: s' => if (x =? c)%N then strip_prefix p' s' else None
      | [] => None
      end
  end.

(** [String.prototype.includes]. *)
Fixpoint includes (s needle : jsstring) : bool :=
  match strip_prefix needle s with
  | Some _ => true
  | None => match s with
            | [] => false
            | _ :: t => includes t needle
            end
  end.

Fixpoint take_while (p : jschar -> bool) (s : jsstring) : jsstring :=
  match s with
  | x :: t => if p x then x :: take_while p t else []
  | [] => []
  end.

Fixpoint drop_while (p : jschar -> bool) (s : jsstring) : jsstring :=
  match s with
  | x :: t => if p x then drop_while p t else s
  | [] => []
  end.

(** What follows the longest run of a class does not continue it. *)
Definition stops (p : jschar -> bool) (s : jsstring) : Prop :=
  match s with
  | [] => True
  | x :: _ => p x = false
  end.

(** Decimal rendering of an integer, as a template literal renders an
    integer-valued number of magnitude below 10^21; from there on JavaScript
    writes an exponent, which this rendering does not follow. *)
Definition show_Z (z : Z) : jsstring :=
  lit (NilZero.string_of_int (Z.to_int z)).

Definition show_nat (n : nat) : jsstring := show_Z (Z.of_nat n).

(** ** [encodeURIComponent]

    Code units of the unreserved set stay; every other code point is written
    as the [%XX] of its UTF-8 octets; a surrogate without its partner makes
    the function throw [URIError] ([None]). *)

Definition is_high_surrogate (c : jschar) : bool :=
  ((0xD800 <=? c) && (c <=? 0xDBFF))%N.

Definition is_low_surrogate (c : jschar) : bool :=
  ((0xDC00 <=? c) && (c <=? 0xDFFF))%N.

(** [A-Z a-z 0-9 - _ . ! ~ * ' ( )] *)
Definition uri_unreserved (c : jschar) : bool :=
  (((65 <=? c) && (c <=? 90)) || ((97 <=? c) && (c <=? 122)) || is_digit c
   || (c =? 45) || (c =? 95) || (c =? 46) || (c =? 33) || (c =? 126)
   || (c =? 42) || (c =? 39) || (c =? 40) || (c =? 41))%N.

Definition hex_digit (n : N) : jschar :=
  (if n <? 10 then 48 + n else 55 + n)%N.

Definition percent_octet (octet : N) : jsstring :=
  [37%N; hex_digit (octet / 16); hex_digit (octet mod 16)].

Definition utf8_octets (cp : N) : list N :=
  (if cp <? 0x80 then [cp]
   else if cp <? 0x800 then [0xC0 + cp / 64; 0x80 + cp mod 64]
   else if cp <? 0x10000 then
     [0xE0 + cp / 4096; 0x80 + (cp / 64) mod 64; 0x80 + cp mod 64]
   else
     [0xF0 + cp / 262144; 0x80 + (cp / 4096) mod 64; 0x80 + (cp / 64) mod 64;
      0x80 + cp mod 64])%N.

Definition code_point (high low : jschar) : N :=
  (0x10000 + (high - 0xD800) * 1024 + (low - 0xDC00))%N.

Fixpoint encodeURIComponent (s : jsstring) : option jsstring :=
  match s with
  | [] => Some []
  | c :: t =>
      if uri_unreserved c then option_map (cons c) (encodeURIComponent t)
      else if is_low_surrogate c then None
      else if is_high_surrogate c then
        match t with
        | d :: t' =>
            if is_low_surrogate d then
              option_map (app (flat_map percent_octet (utf8_octets (code_point c d))))
                (encodeURIComponent t')
            else None
        | [] => None
        end
      else
        option_map (app (flat_map percent_octet (utf8_octets c)))
          (encodeURIComponent t)
  end.

(** * Regular expressions

    The fragment of ECMAScript regular expressions the page uses: literal
    characters, a one-character class, the [^] assertion under the [m] flag,
    and a capturing group around a greedy [+] of a class.  Matching is by
    backtracking, longest repetition first, as the language defines it. *)

Module Regex.

Inductive charclass :=
| CNot (c : jschar)   (* [^c] *)
| CDigit.             (* \d  *)

Definition in_class (k : charclass) (x : jschar) : bool :=
  match k with
  | CNot c => negb (x =? c)%N
  | CDigit => is_digit x
  end.

Inductive atom :=
| ALit (l : jsstring)        (* literal characters *)
| AClass (k : charclass)     (* one character of a class *)
| ABol                       (* ^ with the m flag *)
| ACapPlus (k : charclass).  (* ( k+ ) *)

Definition regex := list atom.

(** What [^] looks at: the code unit before the current position. *)
Definition at_line_start (prev : option jschar) : bool :=
  match prev with
  | None => true
  | Some c => is_line_terminator c
  end.

Definition last_of (l : jsstring) (prev : option jschar) : option jschar :=
  match rev l with
  | c :: _ => Some c
  | [] => prev
  end.

Section Plus.
Variable A : Type.
Variable k : charclass.
(** the rest of the pattern: captured text, previous code unit, remaining
    input *)
Variable cont : jsstring -> option jschar -> jsstring -> option A.

(** Greedy [k+]: take one more character first; give a character back only
    when the rest of the pattern fails. *)
Fixpoint plus_k (acc : jsstring) (s : jsstring) : option A :=
  match s with
  | x :: t =>
      if in_class k x then
        match plus_k (acc ++ [x]) t with
        | Some r => Some r
        | None => cont (acc ++ [x]) (Some x) t
        end
      else None
  | [] => None
  end.
End Plus.

(** [match_here re caps prev s]: match [re] at the start of [s]; the result
    is the captures and the input left after the match. *)
Fixpoint match_here (re : regex) (caps : list jsstring)
    (prev : option jschar) (s : jsstring) : option (list jsstring * jsstring) :=
  match re with
  | [] => Some (caps, s)
  | ALit l :: re' =>
      match strip_prefix l s with
      | Some s' => match_here re' caps (last_of l prev) s'
      | None => None
      end
  | AClass k :: re' =>
      match s with
      | x :: t => if in_class k x then match_here re' caps (Some x) t else None
      | [] => None
      end
  | ABol :: re' =>
      if at_line_start prev then match_here re' caps prev s else None
  | ACapPlus k :: re' =>
      plus_k k (fun cap p rest => match_here re' (caps ++ [cap]) p rest) [] s
  end.

(** Patterns without [^] do not look behind. *)
Definition no_bol (re : regex) : bool :=
  forallb (fun a => match a with ABol => false | _ => true end) re.

(** [RegExp.prototype.exec] without the [g] flag: the leftmost position where
    the pattern matches; the result is the list of captures ([m[1]], [m[2]],
    ...). *)
Fixpoint exec_from (re : regex) (prev : option jschar) (s : jsstring)
    : option (list jsstring) :=
  match match_here re [] prev s with
  | Some (caps, _) => Some caps
  | None =>
      match s with
      | [] => None
      | x :: t => exec_from re (Some x) t
      end
  end.

Definition exec (re : regex) (s : jsstring) : option (list jsstring) :=
  exec_from re None s.

(** [String.prototype.match] with the [g] flag: every match, left to right,
    the search resuming where the previous match ended (one further when the
    match was empty).  [skip] counts the code units of the current match still
    to pass. *)
Fixpoint match_all_from (re : regex) (prev : option jschar) (s : jsstring)
    (skip : nat) : list jsstring :=
  match s with
  | [] =>
      match skip, match_here re [] prev [] with
      | 0, Some _ => [[]]
      | _, _ => []
      end
  | x :: t =>
      match skip with
      | S k => match_all_from re (Some x) t k
      | 0 =>
          match match_here re [] prev s with
          | Some (_, rest) =>
              let n := List.length s - List.length rest in
              firstn n s :: match_all_from re (Some x) t (n - 1)
          | None => match_all_from re (Some x) t 0
          end
      end
  end.

(** The array of matches, or [null] ([None]) when there is none. *)
Definition match_g (re : regex) (s : jsstring) : option (list jsstring) :=
  match match_all_from re None s 0 with
  | [] => None
  | ms => Some ms
  end.

End Regex.

(** * The CodeDiff page *)

Module CodeDiff.
Import Regex.

Inductive Platform := github | gitlab.

Record MrRef := {
  platform : Platform;
  owner : jsstring;
  repo : jsstring;
  mrNumber : jsstring
}.

(** [/github\.com\/([^\/]+)\/([^\/]+)\/pull\/(\d+)/] *)
Definition githubRe : regex :=
  [ ALit (lit "github.com/"); ACapPlus (CNot slash); ALit (lit "/");
    ACapPlus (CNot slash); ALit (lit "/pull/"); ACapPlus CDigit ].

(** [/gitlab\.com\/([^\/]+)\/([^\/]+)\/-\/merge_requests\/(\d+)/] *)
Definition gitlabRe : regex :=
  [ ALit (lit "gitlab.com/"); ACapPlus (CNot slash); ALit (lit "/");
    ACapPlus (CNot slash); ALit (lit "/-/merge_requests/"); ACapPlus CDigit ].

(** [m[i]] of a match array, [i >= 1]. *)
Definition group (caps : list jsstring) (i : nat) : jsstring :=
  nth (i - 1) caps [].

Definition parseMRUrl (url : jsstring) : option MrRef :=
  match exec githubRe url with
  | Some m =>
      Some {| platform := github; owner := group m 1; repo := group m 2;
              mrNumber := group m 3 |}
  | None =>
      match exec gitlabRe url with
      | Some m =>
          Some {| platform := gitlab; owner := group m 1; repo := group m 2;
                  mrNumber := group m 3 |}
      | None => None
      end
  end.

(** ** Data of the page *)

Inductive FileStatus := added | modified | removed | renamed.

Record FileChange := {
  filename : jsstring;
  status : FileStatus;
  additions : Z;
  deletions : Z;
  patch : option jsstring        (* [patch?: string] *)
}.

Inductive ViewMode := side_by_side | unified.
Inductive OutputFormat := fmt_side_by_side | fmt_line_by_line.

Record Toast := {
  toast_title : jsstring;
  toast_description : jsstring;
  toast_destructive : bool
}.

(** The [useState] cells of the component the handlers read or set_state, and the
    notices raised so far. *)
Record UI := {
  mrUrl : jsstring;
  isLoading : bool;
  filesChanged : list FileChange;
  selectedFile : option FileChange;
  diffHtml : jsstring;
  viewMode : ViewMode;
  mrTitle : jsstring;
  mrAuthor : jsstring;
  toasts : list Toast
}.

Definition setIsLoading (b : bool) (ui : UI) : UI :=
  {| mrUrl := mrUrl ui; isLoading := b; filesChanged := filesChanged ui;
     selectedFile := selectedFile ui; diffHtml := diffHtml ui;
     viewMode := viewMode ui; mrTitle := mrTitle ui; mrAuthor := mrAuthor ui;
     toasts := toasts ui |}.

Definition setFilesChanged (fs : list FileChange) (ui : UI) : UI :=
  {| mrUrl := mrUrl ui; isLoading := isLoading ui; filesChanged := fs;
     selectedFile := selectedFile ui; diffHtml := diffHtml ui;
     viewMode := viewMode ui; mrTitle := mrTitle ui; mrAuthor := mrAuthor ui;
     toasts := toasts ui |}.

Definition setSelectedFile (f : option FileChange) (ui : UI) : UI :=
  {| mrUrl := mrUrl ui; isLoading := isLoading ui;
     filesChanged := filesChanged ui; selectedFile := f;
     diffHtml := diffHtml ui; viewMode := viewMode ui; mrTitle := mrTitle ui;
     mrAuthor := mrAuthor ui; toasts := toasts ui |}.

Definition setDiffHtml (h : jsstring) (ui : UI) : UI :=
  {| mrUrl := mrUrl ui; isLoading := isLoading ui;
     filesChanged := filesChanged ui; selectedFile := selectedFile ui;
     diffHtml := h; viewMode := viewMode ui; mrTitle := mrTitle ui;
     mrAuthor := mrAuthor ui; toasts := toasts ui |}.

Definition setMrTitle (t : jsstring) (ui : UI) : UI :=
  {| mrUrl := mrUrl ui; isLoading := isLoading ui;
     filesChanged := filesChanged ui; selectedFile := selectedFile ui;
     diffHtml := diffHtml ui; viewMode := viewMode ui; mrTitle := t;
     mrAuthor := mrAuthor ui; toasts := toasts ui |}.

Definition setMrAuthor (a : jsstring) (ui : UI) : UI :=
  {| mrUrl := mrUrl ui; isLoading := isLoading ui;
     filesChanged := filesChanged ui; selectedFile := selectedFile ui;
     diffHtml := diffHtml ui; viewMode := viewMode ui; mrTitle := mrTitle ui;
     mrAuthor := a; toasts := toasts ui |}.

Definition toast (t : Toast) (ui : UI) : UI :=
  {| mrUrl := mrUrl ui; isLoading := isLoading ui;
     filesChanged := filesChanged ui; selectedFile := selectedFile ui;
     diffHtml := diffHtml ui; viewMode := viewMode ui; mrTitle := mrTitle ui;
     mrAuthor := mrAuthor ui; toasts := toasts ui ++ [t] |}.

(** ** Handlers: state and exceptions

    A handler runs on the state and either returns or throws; what it wrote
    before throwing stays written. *)

Inductive Res (A : Type) :=
| Ok (a : A)
| Throw (message : jsstring).
Arguments Ok {A} a.
Arguments Throw {A} message.

Definition M (A : Type) : Type := UI -> Res A * UI.

Definition ret {A} (a : A) : M A := fun ui => (Ok a, ui).

Definition bind {A B} (m : M A) (f : A -> M B) : M B :=
  fun ui =>
    match m ui with
    | (Ok a, ui') => f a ui'
    | (Throw e, ui') => (Throw e, ui')
    end.

Definition throw {A} (e : jsstring) : M A := fun ui => (Throw e, ui).

Definition set_state (f : UI -> UI) : M unit := fun ui => (Ok tt, f ui).

(** [try { body } catch (error) { handler } finally { final }] *)
Definition try_catch_finally (body : M unit) (handler : jsstring -> M unit)
    (final : M unit) : M unit :=
  fun ui =>
    match body ui with
    | (Ok _, ui') => final ui'
    | (Throw e, ui') => bind (handler e) (fun _ => final) ui'
    end.

Notation "m1 ;; m2" := (bind m1 (fun _ => m2))
  (at level 61, right associativity).

(** ** What the platforms answer *)

Record Response (B : Type) := {
  ok : bool;          (* [response.ok] *)
  json : B            (* [await response.json()] *)
}.

Record GitHubPr := {
  pr_title : jsstring;
  pr_user_login : option jsstring     (* [prData.user?.login] *)
}.

Record GitHubFile := {
  gh_filename : jsstring;
  gh_status : FileStatus;
  gh_additions : Z;
  gh_deletions : Z;
  gh_patch : option jsstring
}.

Record GitLabMr := {
  mr_title : jsstring;
  mr_author_username : option jsstring   (* [mrData.author?.username] *)
}.

Record GitLabChange := {
  new_file : bool;
  deleted_file : bool;
  renamed_file : bool;
  diff : option jsstring;     (* absent or [null]: [None] *)
  new_path : jsstring;
  old_path : jsstring
}.

Record GitLabChanges := {
  changes : option (list GitLabChange)   (* absent or [null]: [None] *)
}.

(** The four requests, answered for an owner, a repository and a number. *)
Record Network := {
  github_pull : jsstring -> jsstring -> jsstring -> Response GitHubPr;
  github_pull_files :
    jsstring -> jsstring -> jsstring -> Response (list GitHubFile);
  gitlab_merge_request : jsstring -> jsstring -> jsstring -> Response GitLabMr;
  gitlab_changes : jsstring -> jsstring -> jsstring -> Response GitLabChanges
}.

(** Truthiness of an optional string: present and not empty. *)
Definition truthy (s : option jsstring) : bool :=
  match s with
  | Some (_ :: _) => true
  | _ => false
  end.

(** [a || fallback] on an optional string. *)
Definition or_else (a : option jsstring) (fallback : jsstring) : jsstring :=
  match a with
  | Some (c :: s) => c :: s
  | _ => fallback
  end.

(** [/^\+[^+]/gm] and [/^-[^-]/gm] *)
Definition additionsRe : regex :=
  [ ABol; ALit [plus_sign]; AClass (CNot plus_sign) ].

Definition deletionsRe : regex :=
  [ ABol; ALit [minus_sign]; AClass (CNot minus_sign) ].

(** [(change.diff?.match(re) || []).length] *)
Definition count_matches (re : regex) (d : option jsstring) : nat :=
  match d with
  | None => 0
  | Some text =>
      match match_g re text with
      | None => 0
      | Some ms => List.length ms
      end
  end.

(** The callback of [fetchGitLabMR] that turns one change into a
    [FileChange]. *)
Definition gitlabStatus (change : GitLabChange) : FileStatus :=
  if new_file change then added
  else if deleted_file change then removed
  else if renamed_file change then renamed
  else modified.

Definition gitlabFileChange (change : GitLabChange) : FileChange :=
  {| filename := match new_path change with
                 | [] => old_path change
                 | p => p
                 end;
     status := gitlabStatus change;
     additions := Z.of_nat (count_matches additionsRe (diff change));
     deletions := Z.of_nat (count_matches deletionsRe (diff change));
     patch := diff change |}.

(** The callback of [fetchGitHubPR]. *)
Definition githubFileChange (file : GitHubFile) : FileChange :=
  {| filename := gh_filename file;
     status := gh_status file;
     additions := gh_additions file;
     deletions := gh_deletions file;
     patch := gh_patch file |}.

Section Page.
(** [parse] and [html] of diff2html, composed: the markup for a diff text
    in an output format, or [None] when one of them throws. *)
Variable diff2html : OutputFormat -> jsstring -> option jsstring.
Variable net : Network.

Definition generateDiffHtml (patch filename : jsstring) : M unit :=
  fun ui =>
    let diffString :=
      lit "diff --git a/" ++ filename ++ lit " b/" ++ filename
        ++ [newline] ++ patch in
    let outputFormat :=
      match viewMode ui with
      | side_by_side => fmt_side_by_side
      | unified => fmt_line_by_line
      end in
    match diff2html outputFormat diffString with
    | Some diffHtmlOutput => set_state (setDiffHtml diffHtmlOutput) ui
    | None =>
        set_state (toast {| toast_title := lit "Error generating diff";
                        toast_description :=
                          lit "Failed to parse the diff. The patch format might be invalid.";
                        toast_destructive := true |}) ui
    end.

(** [if (files.length > 0 && files[0].patch) { ... }] *)
Definition selectFirst (files : list FileChange) : M unit :=
  match files with
  | f0 :: _ =>
      match patch f0 with
      | Some (c :: p) =>
          set_state (setSelectedFile (Some f0)) ;;
          generateDiffHtml (c :: p) (filename f0)
      | _ => ret tt
      end
  | [] => ret tt
  end.

Definition fetchGitHubPR (owner repo prNumber : jsstring) : M unit :=
  let prResponse := github_pull net owner repo prNumber in
  let filesResponse := github_pull_files net owner repo prNumber in
  if negb (ok prResponse) || negb (ok filesResponse) then
    throw (lit "Failed to fetch GitHub PR details")
  else
    let prData := json prResponse in
    let filesData := json filesResponse in
    let files := List.map githubFileChange filesData in
    set_state (setMrTitle (pr_title prData)) ;;
    set_state (setMrAuthor (or_else (pr_user_login prData) (lit "Unknown"))) ;;
    set_state (setFilesChanged files) ;;
    selectFirst files.

(** [projectPath] is the encoded [owner/repo]; when it cannot be encoded the
    [URIError] leaves the function before any request is made.  The two
    requests are those of the network for this owner, repository and number,
    which the project path stands for in their URLs. *)
Definition fetchGitLabMR (owner repo mrNumber : jsstring) : M unit :=
  match encodeURIComponent (owner ++ [slash] ++ repo) with
  | None => throw (lit "URI malformed")
  | Some projectPath =>
      let mrResponse := gitlab_merge_request net owner repo mrNumber in
      let changesResponse := gitlab_changes net owner repo mrNumber in
      if negb (ok mrResponse) || negb (ok changesResponse) then
        throw (lit "Failed to fetch GitLab MR details")
      else
        let mrData := json mrResponse in
        let changesData := json changesResponse in
        let files :=
          List.map gitlabFileChange
            (match changes changesData with
             | Some cs => cs
             | None => []
             end) in
        set_state (setMrTitle (mr_title mrData)) ;;
        set_state (setMrAuthor (or_else (mr_author_username mrData) (lit "Unknown"))) ;;
        set_state (setFilesChanged files) ;;
        selectFirst files
  end.

(** The handler of the fetch button.  [mrUrl] and [filesChanged] are the
    values the render that created the handler saw: the state at the call. *)
Definition handleFetchDiff : M unit :=
  fun ui0 =>
    match mrUrl ui0 with
    | [] =>
        set_state (toast {| toast_title := lit "MR URL required";
                        toast_description := lit "Please enter a merge request URL";
                        toast_destructive := true |}) ui0
    | _ =>
        match parseMRUrl (mrUrl ui0) with
        | None =>
            set_state (toast {| toast_title := lit "Invalid URL";
                            toast_description :=
                              lit "Please enter a valid GitHub or GitLab MR URL";
                            toast_destructive := true |}) ui0
        | Some parsed =>
            (set_state (setIsLoading true) ;;
             set_state (setFilesChanged []) ;;
             set_state (setSelectedFile None) ;;
             set_state (setDiffHtml []) ;;
             try_catch_finally
               ((match platform parsed with
                 | github =>
                     fetchGitHubPR (owner parsed) (repo parsed) (mrNumber parsed)
                 | gitlab =>
                     fetchGitLabMR (owner parsed) (repo parsed) (mrNumber parsed)
                 end) ;;
                set_state (toast {| toast_title := lit "Diff loaded successfully";
                                toast_description :=
                                  lit "Loaded changes for "
                                    ++ show_nat (List.length (filesChanged ui0))
                                    ++ lit " files";
                                toast_destructive := false |}))
               (fun error =>
                  set_state (toast {| toast_title := lit "Failed to fetch diff";
                                  toast_description := error;
                                  toast_destructive := true |}))
               (set_state (setIsLoading false))) ui0
        end
    end.
End Page.

(** ** The shapes of a merge-request URL *)

Definition host_of (p : Platform) : jsstring :=
  match p with
  | github => lit "github.com/"
  | gitlab => lit "gitlab.com/"
  end.

Definition infix_of (p : Platform) : jsstring :=
  match p with
  | github => lit "/pull/"
  | gitlab => lit "/-/merge_requests/"
  end.

(** [github.com/{owner}/{repo}/pull/{number}] and
    [gitlab.com/{owner}/{repo}/-/merge_requests/{number}] *)
Definition shape_text (r : MrRef) : jsstring :=
  host_of (platform r) ++ owner r ++ [slash] ++ repo r
    ++ infix_of (platform r) ++ mrNumber r.

(** A path segment: not empty, no [/]. *)
Definition segment (s : jsstring) : Prop :=
  s <> [] /\ Forall (fun c => c <> slash) s.

(** A request number: not empty, decimal digits only. *)
Definition number (s : jsstring) : Prop :=
  s <> [] /\ Forall (fun c => is_digit c = true) s.

Definition well_formed (r : MrRef) : Prop :=
  segment (owner r) /\ segment (repo r) /\ number (mrNumber r).

(** [url] has the shape of [r] after [pre], followed by [post]. *)
Definition occurs (url pre : jsstring) (r : MrRef) (post : jsstring) : Prop :=
  url = pre ++ shape_text r ++ post /\ well_formed r.

Definition contains_shape (url : jsstring) : Prop :=
  exists pre r post, occurs url pre r post.

(** The specification's sentence on malformed numbers: a URL of a supported
    shape whose number segment is not a number is not recognized. *)
Definition malformed_number_rejected : Prop :=
  forall (p : Platform) (o r seg : jsstring),
    segment o -> segment r -> segment seg -> ~ number seg ->
    parseMRUrl (lit "https://" ++ host_of p ++ o ++ [slash] ++ r
                  ++ infix_of p ++ seg) = None.

Definition re_of (p : Platform) : regex :=
  match p with
  | github => githubRe
  | gitlab => gitlabRe
  end.

(** One position of the search, with the backtracking resolved: each group
    takes its longest run. *)
Definition shape_at (host mid : jsstring) (s : jsstring)
    : option (list jsstring * jsstring) :=
  match strip_prefix host s with
  | None => None
  | Some s1 =>
      match take_while (in_class (CNot slash)) s1 with
      | [] => None
      | o =>
          match strip_prefix [slash] (drop_while (in_class (CNot slash)) s1) with
          | None => None
          | Some s2 =>
              match take_while (in_class (CNot slash)) s2 with
              | [] => None
              | r =>
                  match strip_prefix mid (drop_while (in_class (CNot slash)) s2) with
                  | None => None
                  | Some s3 =>
                      match take_while is_digit s3 with
                      | [] => None
                      | n => Some ([o; r; n], drop_while is_digit s3)
                      end
                  end
              end
          end
      end
  end.

(** ** Notions the specification uses about a fetch *)



(** The exception a fetch for [r] ends with, if any: the project path of a
    GitLab reference cannot be encoded, or one of the two requests came back
    with a non-success status. *)
Definition fetch_error (net : Network) (r : MrRef) : option jsstring :=
  match platform r with
  | github =>
      if ok (github_pull net (owner r) (repo r) (mrNumber r))
         && ok (github_pull_files net (owner r) (repo r) (mrNumber r))
      then None
      else Some (lit "Failed to fetch GitHub PR details")
  | gitlab =>
      match encodeURIComponent (owner r ++ [slash] ++ repo r) with
      | None => Some (lit "URI malformed")
      | Some _ =>
          if ok (gitlab_merge_request net (owner r) (repo r) (mrNumber r))
             && ok (gitlab_changes net (owner r) (repo r) (mrNumber r))
          then None
          else Some (lit "Failed to fetch GitLab MR details")
      end
  end.

(** The normalized file list the platform's answer stands for. *)
Definition fetched_files (net : Network) (r : MrRef) : list FileChange :=
  match platform r with
  | github =>
      List.map githubFileChange
        (json (github_pull_files net (owner r) (repo r) (mrNumber r)))
  | gitlab =>
      List.map gitlabFileChange
        (match changes (json (gitlab_changes net (owner r) (repo r) (mrNumber r))) with
         | Some cs => cs
         | None => []
         end)
  end.

Definition fetched_title (net : Network) (r : MrRef) : jsstring :=
  match platform r with
  | github => pr_title (json (github_pull net (owner r) (repo r) (mrNumber r)))
  | gitlab =>
      mr_title (json (gitlab_merge_request net (owner r) (repo r) (mrNumber r)))
  end.

Definition fetched_author (net : Network) (r : MrRef) : jsstring :=
  match platform r with
  | github =>
      or_else (pr_user_login (json (github_pull net (owner r) (repo r) (mrNumber r))))
        (lit "Unknown")
  | gitlab =>
      or_else
        (mr_author_username
           (json (gitlab_merge_request net (owner r) (repo r) (mrNumber r))))
        (lit "Unknown")
  end.

(** The displayed summary: file list, selected file, rendered diff. *)
Definition summary (ui : UI) : list FileChange * option FileChange * jsstring :=
  (filesChanged ui, selectedFile ui, diffHtml ui).




(** More than one of the three flags of a change is set. *)
Definition inconsistent_flags (c : GitLabChange) : bool :=
  (new_file c && deleted_file c) || (new_file c && renamed_file c)
  || (deleted_file c && renamed_file c).

(** The specification's tie-break. *)
Definition inconsistent_flags_give_modified : Prop :=
  forall c, inconsistent_flags c = true -> status (gitlabFileChange c) = modified.

(** The lines of a text, cut at every line terminator. *)
Fixpoint split_lines (s : jsstring) : list jsstring :=
  match s with
  | [] => [[]]
  | x :: t =>
      if is_line_terminator x then [] :: split_lines t
      else
        match split_lines t with
        | l :: ls => (x :: l) :: ls
        | [] => [[x]]
        end
  end.

(** The line begins with a single [c]: [c], and then no second [c]. *)
Definition single_prefix (c : jschar) (line : jsstring) : bool :=
  match line with
  | x :: rest =>
      (x =? c)%N && match rest with
                    | y :: _ => negb (y =? c)%N
                    | [] => true
                    end
  | [] => false
  end.

Definition count_single_prefix (c : jschar) (text : jsstring) : nat :=
  List.length (filter (single_prefix c) (split_lines text)).

(** The specification's sentence on the counts of the GitLab adapter. *)
Definition counts_single_prefix_lines : Prop :=
  forall change text,
    diff change = Some text ->
    additions (gitlabFileChange change)
      = Z.of_nat (count_single_prefix plus_sign text) /\
    deletions (gitlabFileChange change)
      = Z.of_nat (count_single_prefix minus_sign text).

(** The text ends in a line that is [c] alone, with no terminator after it. *)
Definition ends_with_bare (c : jschar) (text : jsstring) : bool :=
  jseqb (last (split_lines text) []) [c].

(** Positions at the start of a line that hold [c] and are followed by a code
    unit other than [c]. *)
Fixpoint scan (c : jschar) (bol : bool) (s : jsstring) : nat :=
  match s with
  | [] => 0
  | x :: t =>
      (if bol && (x =? c)%N
          && match t with
             | y :: _ => negb (y =? c)%N
             | [] => false
             end
       then 1 else 0)
      + scan c (is_line_terminator x) t
  end.

(** The state once the handler has reset the display and before it asks
    the platform. *)
Definition cleared (ui : UI) : UI :=
  setDiffHtml [] (setSelectedFile None (setFilesChanged [] (setIsLoading true ui))).

Definition success_toast (ui0 : UI) : Toast :=
  {| toast_title := lit "Diff loaded successfully";
     toast_description :=
       lit "Loaded changes for " ++ show_nat (List.length (filesChanged ui0))
         ++ lit " files";
     toast_destructive := false |}.

Definition failure_toast (e : jsstring) : Toast :=
  {| toast_title := lit "Failed to fetch diff";
     toast_description := e;
     toast_destructive := true |}.


(** The same two quantities from the middle of a text: [bol] tells whether
    the first line of [lines] starts at its first code unit. *)
Definition next_differs (c : jschar) (t : jsstring) : bool :=
  match t with
  | y :: _ => negb (y =? c)%N
  | [] => false
  end.

Definition lead (c : jschar) (bol : bool) (lines : list jsstring) : nat :=
  (if bol && single_prefix c (hd [] lines) then 1 else 0)
  + List.length (filter (single_prefix c) (tl lines)).

Definition bare (c : jschar) (bol : bool) (lines : list jsstring) : nat :=
  if (bol || match tl lines with [] => false | _ => true end)
     && jseqb (last lines []) [c]
  then 1 else 0.

(** ** Sample inputs *)

Definition sample_file : FileChange :=
  {| filename := lit "src/app.ts"; status := modified; additions := 1;
     deletions := 1; patch := Some (lit "@@ -1 +1 @@") |}.

Definition sample_ui (url : jsstring) : UI :=
  {| mrUrl := url; isLoading := false; filesChanged := [sample_file];
     selectedFile := Some sample_file; diffHtml := lit "<div>previous</div>";
     viewMode := side_by_side; mrTitle := lit "Previous title";
     mrAuthor := lit "alice"; toasts := [] |}.

Definition github_url : jsstring := lit "https://github.com/acme/widgets/pull/42".

Definition github_ref : MrRef :=
  {| platform := github; owner := lit "acme"; repo := lit "widgets";
     mrNumber := lit "42" |}.
Definition gitlab_ref : MrRef :=
  {| platform := gitlab; owner := lit "acme"; repo := lit "widgets";
     mrNumber := lit "7" |}.

(** A network whose pull-request metadata request is refused, and one that
    answers every request. *)
Definition sample_net (pr_ok : bool) (files : list GitHubFile)
    (cs : option (list GitLabChange)) : Network :=
  {| github_pull := fun _ _ _ =>
       {| ok := pr_ok;
          json := {| pr_title := lit "Add widget"; pr_user_login := Some (lit "bob") |} |};
     github_pull_files := fun _ _ _ => {| ok := true; json := files |};
     gitlab_merge_request := fun _ _ _ =>
       {| ok := true;
          json := {| mr_title := lit "Add widget";
                     mr_author_username := Some (lit "bob") |} |};
     gitlab_changes := fun _ _ _ => {| ok := true; json := {| changes := cs |} |} |}.


Definition no_render : OutputFormat -> jsstring -> option jsstring :=
  fun _ _ => None.

(** The diff fragment of the specification's scenario. *)
Definition scenario_diff : jsstring :=
  lit "+foo" ++ [newline] ++ lit "++bar" ++ [newline] ++ lit "-baz"
    ++ [newline] ++ lit "--qux" ++ [newline].

Definition change_with_diff (d : option jsstring) : GitLabChange :=
  {| new_file := false; deleted_file := false; renamed_file := false;
     diff := d; new_path := lit "src/app.ts"; old_path := lit "src/app.ts" |}.

End CodeDiff.


(** * The Telegram notification function *)

Module Telegram.

(** ** The request payload *)

Inductive Severity := error | warning | info.
Inductive Status := passed | warnings | failed.

(** The string a value of the union type is at run time. *)
Definition severityName (s : Severity) : jsstring :=
  match s with
  | error => lit "error"
  | warning => lit "warning"
  | info => lit "info"
  end.

Definition statusName (s : Status) : jsstring :=
  match s with
  | passed => lit "passed"
  | warnings => lit "warnings"
  | failed => lit "failed"
  end.

Record ReviewIssue := {
  id : jsstring;
  file : jsstring;
  line : Z;
  severity : Severity;
  message : jsstring;
  rule : jsstring;
  suggestion : option jsstring
}.

Record TelegramNotificationRequest := {
  mrTitle : jsstring;
  mrUrl : jsstring;
  author : jsstring;
  filesChanged : Z;
  linesAdded : Z;
  linesRemoved : Z;
  reviewTime : jsstring;
  status : Status;
  issues : list ReviewIssue;
  summary : jsstring
}.

(** ** Emoji and punctuation of the template, as UTF-16 code units *)

Definition check_mark : jsstring := [0x2705%N].
Definition warning_sign : jsstring := [0x26A0%N; 0xFE0F%N].
Definition cross_mark : jsstring := [0x274C%N].
Definition clipboard : jsstring := [0xD83D%N; 0xDCCB%N].
Definition red_circle : jsstring := [0xD83D%N; 0xDD34%N].
Definition yellow_circle : jsstring := [0xD83D%N; 0xDFE1%N].
Definition blue_circle : jsstring := [0xD83D%N; 0xDD35%N].
Definition white_circle : jsstring := [0x26AA%N].
Definition memo : jsstring := [0xD83D%N; 0xDCDD%N].
Definition bust : jsstring := [0xD83D%N; 0xDC64%N].
Definition bar_chart : jsstring := [0xD83D%N; 0xDCCA%N].
Definition folder : jsstring := [0xD83D%N; 0xDCC1%N].
Definition bullet : jsstring := [0x2022%N].
Definition magnifier : jsstring := [0xD83D%N; 0xDD0D%N].
Definition light_bulb : jsstring := [0xD83D%N; 0xDCA1%N].
Definition link : jsstring := [0xD83D%N; 0xDD17%N].

(** ** The message builder *)

Definition getStatusEmoji (status : jsstring) : jsstring :=
  if jseqb status (lit "passed") then check_mark
  else if jseqb status (lit "warnings") then warning_sign
  else if jseqb status (lit "failed") then cross_mark
  else clipboard.

Definition getSeverityEmoji (severity : jsstring) : jsstring :=
  if jseqb severity (lit "error") then red_circle
  else if jseqb severity (lit "warning") then yellow_circle
  else if jseqb severity (lit "info") then blue_circle
  else white_circle.

(** [text.replace(/c/g, by)] for a one-character pattern and a replacement
    without [$]. *)
Definition replace_all (c : jschar) (by_ : jsstring) (text : jsstring) : jsstring :=
  flat_map (fun x => if (x =? c)%N then by_ else [x]) text.

Definition escapeHtml (text : jsstring) : jsstring :=
  replace_all dquote (lit "&quot;")
    (replace_all gt_sign (lit "&gt;")
       (replace_all lt_sign (lit "&lt;")
          (replace_all amp (lit "&amp;") text))).

(** [s.charAt(0).toUpperCase() + s.slice(1)]; the case mapping is given for
    the ASCII letters, which is all a status name holds. *)
Definition toUpperCase (c : jschar) : jschar :=
  if ((97 <=? c) && (c <=? 122))%N then (c - 32)%N else c.

Definition capitalize (s : jsstring) : jsstring :=
  match s with
  | [] => []
  | c :: rest => toUpperCase c :: rest
  end.

Definition severity_is (s : Severity) (i : ReviewIssue) : bool :=
  jseqb (severityName (severity i)) (severityName s).

(** [list.forEach((x, index) => ...)] on an accumulator. *)
Fixpoint forEach_from {A S : Type} (f : S -> A -> nat -> S) (l : list A)
    (index : nat) (acc : S) : S :=
  match l with
  | [] => acc
  | x :: rest => forEach_from f rest (Datatypes.S index) (f acc x index)
  end.

Definition shortMessage (issue : ReviewIssue) : jsstring :=
  if 80 <? List.length (message issue)
  then firstn 80 (message issue) ++ lit "..."
  else message issue.

Definition buildTelegramMessage (data : TelegramNotificationRequest) : jsstring :=
  let statusEmoji := getStatusEmoji (statusName (status data)) in
  let statusText := capitalize (statusName (status data)) in
  let errorCount := List.length (filter (severity_is error) (issues data)) in
  let warningCount := List.length (filter (severity_is warning) (issues data)) in
  let infoCount := List.length (filter (severity_is info) (issues data)) in
  let message :=
    statusEmoji ++ lit " <b>Code Review Complete</b>" ++ [newline; newline] in
  let message :=
    message ++ memo ++ lit " <b>MR:</b> " ++ escapeHtml (mrTitle data) ++ [newline] in
  let message :=
    message ++ bust ++ lit " <b>Author:</b> " ++ escapeHtml (author data)
      ++ [newline] in
  let message :=
    message ++ bar_chart ++ lit " <b>Status:</b> " ++ statusText
      ++ [newline; newline] in
  let message := message ++ folder ++ lit " <b>Stats:</b>" ++ [newline] in
  let message :=
    message ++ bullet ++ lit " Files Changed: " ++ show_Z (filesChanged data)
      ++ [newline] in
  let message :=
    message ++ bullet ++ lit " Lines Added: +" ++ show_Z (linesAdded data)
      ++ [newline] in
  let message :=
    message ++ bullet ++ lit " Lines Removed: -" ++ show_Z (linesRemoved data)
      ++ [newline] in
  let message :=
    message ++ bullet ++ lit " Review Time: " ++ escapeHtml (reviewTime data)
      ++ [newline; newline] in
  let message :=
    if 0 <? List.length (issues data) then
      let message := message ++ magnifier ++ lit " <b>Issues Found:</b>" ++ [newline] in
      let message :=
        message ++ bullet ++ lit " " ++ red_circle ++ lit " Errors: "
          ++ show_nat errorCount ++ [newline] in
      let message :=
        message ++ bullet ++ lit " " ++ yellow_circle ++ lit " Warnings: "
          ++ show_nat warningCount ++ [newline] in
      let message :=
        message ++ bullet ++ lit " " ++ blue_circle ++ lit " Info: "
          ++ show_nat infoCount ++ [newline; newline] in
      let topIssues := firstn 5 (issues data) in
      let message := message ++ clipboard ++ lit " <b>Top Issues:</b>" ++ [newline] in
      let message :=
        forEach_from
          (fun message issue index =>
             let emoji := getSeverityEmoji (severityName (severity issue)) in
             let message :=
               message ++ show_nat (index + 1) ++ lit ". " ++ emoji
                 ++ lit " <code>" ++ escapeHtml (file issue) ++ lit ":"
                 ++ show_Z (line issue) ++ lit "</code>" ++ [newline] in
             message ++ lit "   " ++ escapeHtml (shortMessage issue) ++ [newline])
          topIssues 0 message in
      if 5 <? List.length (issues data) then
        message ++ [newline] ++ lit "<i>... and "
          ++ show_nat (List.length (issues data) - 5) ++ lit " more issues</i>"
          ++ [newline]
      else message
    else message in
  let message :=
    message ++ [newline] ++ light_bulb ++ lit " <b>Summary:</b>" ++ [newline]
      ++ escapeHtml (summary data) ++ [newline; newline] in
  message ++ link ++ lit " <a href=" ++ [dquote] ++ escapeHtml (mrUrl data)
    ++ [dquote] ++ lit ">View Merge Request</a>".

(** ** The request handler *)

(** The two secrets of the environment; [None] when unset. *)
Record Env := {
  TELEGRAM_BOT_TOKEN : option jsstring;
  TELEGRAM_CHAT_ID : option jsstring
}.

(** What the body of a request parses to.  Nothing validates it against the
    interface the handler declares for it:
    - [Typed data]: a value of the interface [TelegramNotificationRequest];
    - [NullBody message]: the JSON value [null]; reading [data.mrTitle] for
      the first log line then throws a TypeError with this message;
    - [Foreign built]: any other JSON value, with what running
      [buildTelegramMessage] on it gives: [inl message] when it throws (as on
      the empty object, whose [status] has no [charAt]; what the engine
      throws there is an Error, so the [instanceof] test of the handler
      holds), [inr text] when it returns. *)
Inductive Parsed :=
| Typed (data : TelegramNotificationRequest)
| NullBody (message : jsstring)
| Foreign (built : jsstring + jsstring).

(** The incoming request: its method, and what [req.json()] gives, a parsed
    value or an exception with its message. *)
Record Request := {
  method : jsstring;
  body : jsstring + Parsed
}.

(** The JSON object Telegram returns. *)
Record TelegramResult := {
  error_code : option Z;
  description : option jsstring;
  message_id : option Z        (* [result.result?.message_id] *)
}.

(** The call to the Bot API: an exception ([fetch] or [response.json()]
    throws), or a reply with [response.ok] and its JSON. *)
Inductive ApiOutcome :=
| ApiThrows (message : jsstring)
| ApiReplies (ok : bool) (result : TelegramResult).

(** The bodies the function answers with. *)
Inductive ResponseBody :=
| NoBody
| ConfigError (error instructions : jsstring)
| Failure (error hint : jsstring)
| Success (messageId : option Z) (chatId : jsstring).

Record HttpResponse := {
  http_status : Z;
  http_body : ResponseBody
}.

(** [!value || value === ''] on a secret: unset or empty. *)
Definition unset (v : option jsstring) : bool :=
  match v with
  | Some (_ :: _) => false
  | _ => true
  end.

Definition secret_value (v : option jsstring) : jsstring :=
  match v with
  | Some s => s
  | None => []
  end.

(** A number or [undefined] inside a template literal. *)
Definition show_code (c : option Z) : jsstring :=
  match c with
  | Some z => show_Z z
  | None => lit "undefined"
  end.

(** [result.description || result.error_code || "Unknown error"], as the
    template literal renders it. *)
Definition errorMsg (result : TelegramResult) : jsstring :=
  match description result with
  | Some (c :: d) => c :: d
  | _ =>
      match error_code result with
      | Some z => if (z =? 0)%Z then lit "Unknown error" else show_Z z
      | None => lit "Unknown error"
      end
  end.

(** [result.error_code === 400 && result.description?.includes("chat not found")] *)
Definition chat_not_found (result : TelegramResult) : bool :=
  match error_code result, description result with
  | Some z, Some d => (z =? 400)%Z && includes d (lit "chat not found")
  | _, _ => false
  end.

Definition unauthorized (result : TelegramResult) : bool :=
  match error_code result with
  | Some z => (z =? 401)%Z
  | None => false
  end.

Definition invalid_chat_message (chat : jsstring) : jsstring :=
  lit "Invalid TELEGRAM_CHAT_ID. The bot cannot access chat: " ++ chat
    ++ lit ". Make sure to start the bot first by sending /start".

Definition invalid_token_message : jsstring :=
  lit "Invalid TELEGRAM_BOT_TOKEN. Please check your bot token.".

Definition api_error_message (result : TelegramResult) : jsstring :=
  lit "Telegram API error (" ++ show_code (error_code result) ++ lit "): "
    ++ errorMsg result.

(** The outer [catch]: every exception becomes a 500 with its message. *)
Definition caught (errorMessage : jsstring) : HttpResponse :=
  {| http_status := 500;
     http_body := Failure errorMessage (lit "Check the function logs for more details") |}.

Section Handler.
Variable env : Env.
(** the Bot API, called with the URL, the chat id and the text *)
Variable sendMessage : jsstring -> jsstring -> jsstring -> ApiOutcome.

Definition serve (req : Request) : HttpResponse :=
  if jseqb (method req) (lit "OPTIONS") then
    {| http_status := 200; http_body := NoBody |}
  else if unset (TELEGRAM_BOT_TOKEN env) then
    {| http_status := 500;
       http_body :=
         ConfigError
           (lit "TELEGRAM_BOT_TOKEN is not configured in Supabase secrets")
           (lit "Set it using: supabase secrets set TELEGRAM_BOT_TOKEN=your_bot_token") |}
  else if unset (TELEGRAM_CHAT_ID env) then
    {| http_status := 500;
       http_body :=
         ConfigError
           (lit "TELEGRAM_CHAT_ID is not configured in Supabase secrets")
           (lit "Set it using: supabase secrets set TELEGRAM_CHAT_ID=your_chat_id") |}
  else
    let token := secret_value (TELEGRAM_BOT_TOKEN env) in
    let chat := secret_value (TELEGRAM_CHAT_ID env) in
    (* from [try { message = buildTelegramMessage(data) } catch ...] on *)
    let deliver (built : jsstring + jsstring) :=
      match built with
      | inl buildError => caught (lit "Failed to build message: " ++ buildError)
      | inr message =>
          let telegramUrl :=
            lit "https://api.telegram.org/bot" ++ token ++ lit "/sendMessage" in
          match sendMessage telegramUrl chat message with
          | ApiThrows e => caught e
          | ApiReplies ok result =>
              if negb ok then
                if chat_not_found result then caught (invalid_chat_message chat)
                else if unauthorized result then caught invalid_token_message
                else caught (api_error_message result)
              else
                {| http_status := 200;
                   http_body := Success (message_id result) chat |}
          end
      end in
    match body req with
    | inl e => caught e                       (* [req.json()] throws *)
    | inr (NullBody e) => caught e            (* [data.mrTitle] throws *)
    | inr (Typed data) => deliver (inr (buildTelegramMessage data))
    | inr (Foreign built) => deliver built
    end.
End Handler.

(** ** Notions the specification uses about the message *)

(** The part of the message before the issue section, after the status
    emoji. *)
Definition message_header (data : TelegramNotificationRequest) : jsstring :=
  lit " <b>Code Review Complete</b>" ++ [newline; newline]
  ++ memo ++ lit " <b>MR:</b> " ++ escapeHtml (mrTitle data) ++ [newline]
  ++ bust ++ lit " <b>Author:</b> " ++ escapeHtml (author data) ++ [newline]
  ++ bar_chart ++ lit " <b>Status:</b> " ++ capitalize (statusName (status data))
  ++ [newline; newline]
  ++ folder ++ lit " <b>Stats:</b>" ++ [newline]
  ++ bullet ++ lit " Files Changed: " ++ show_Z (filesChanged data) ++ [newline]
  ++ bullet ++ lit " Lines Added: +" ++ show_Z (linesAdded data) ++ [newline]
  ++ bullet ++ lit " Lines Removed: -" ++ show_Z (linesRemoved data) ++ [newline]
  ++ bullet ++ lit " Review Time: " ++ escapeHtml (reviewTime data)
  ++ [newline; newline].

(** The counts by severity and the heading of the list. *)
Definition issue_counts (data : TelegramNotificationRequest) : jsstring :=
  magnifier ++ lit " <b>Issues Found:</b>" ++ [newline]
  ++ bullet ++ lit " " ++ red_circle ++ lit " Errors: "
  ++ show_nat (List.length (filter (severity_is error) (issues data))) ++ [newline]
  ++ bullet ++ lit " " ++ yellow_circle ++ lit " Warnings: "
  ++ show_nat (List.length (filter (severity_is warning) (issues data))) ++ [newline]
  ++ bullet ++ lit " " ++ blue_circle ++ lit " Info: "
  ++ show_nat (List.length (filter (severity_is info) (issues data)))
  ++ [newline; newline]
  ++ clipboard ++ lit " <b>Top Issues:</b>" ++ [newline].

(** The two lines of the issue numbered [k]: where it is, and what it says. *)
Definition issue_location (k : nat) (issue : ReviewIssue) : jsstring :=
  show_nat k ++ lit ". " ++ getSeverityEmoji (severityName (severity issue))
  ++ lit " <code>" ++ escapeHtml (file issue) ++ lit ":" ++ show_Z (line issue)
  ++ lit "</code>" ++ [newline].

Definition issue_text (issue : ReviewIssue) : jsstring :=
  lit "   " ++ escapeHtml (shortMessage issue) ++ [newline].

Definition issue_entry (k : nat) (issue : ReviewIssue) : jsstring :=
  issue_location k issue ++ issue_text issue.

(** Entries numbered from [k]. *)
Fixpoint issue_entries (k : nat) (l : list ReviewIssue) : jsstring :=
  match l with
  | [] => []
  | issue :: rest => issue_entry k issue ++ issue_entries (Datatypes.S k) rest
  end.

Definition more_issues_line (remaining : nat) : jsstring :=
  [newline] ++ lit "<i>... and " ++ show_nat remaining ++ lit " more issues</i>"
  ++ [newline].

Definition message_footer (data : TelegramNotificationRequest) : jsstring :=
  [newline] ++ light_bulb ++ lit " <b>Summary:</b>" ++ [newline]
  ++ escapeHtml (summary data) ++ [newline; newline]
  ++ link ++ lit " <a href=" ++ [dquote] ++ escapeHtml (mrUrl data) ++ [dquote]
  ++ lit ">View Merge Request</a>".

(** The characters that open or close markup in Telegram's HTML mode. *)
Definition is_markup (c : jschar) : bool :=
  ((c =? lt_sign) || (c =? gt_sign) || (c =? dquote))%N.

(** The four entities [escapeHtml] writes, without their [&]. *)
Definition entity_bodies : list jsstring :=
  [lit "amp;"; lit "lt;"; lit "gt;"; lit "quot;"].

(** Every [&] of [s] begins an entity. *)
Definition entities_only (s : jsstring) : Prop :=
  forall pre post, s = pre ++ amp :: post ->
    exists e post', In e entity_bodies /\ post = e ++ post'.

(** The payload with its seven free-text fields emptied. *)
Definition blank_issue (i : ReviewIssue) : ReviewIssue :=
  {| id := id i; file := []; line := line i; severity := severity i;
     message := []; rule := rule i; suggestion := suggestion i |}.

Definition blank_text (data : TelegramNotificationRequest)
    : TelegramNotificationRequest :=
  {| mrTitle := []; mrUrl := []; author := [];
     filesChanged := filesChanged data; linesAdded := linesAdded data;
     linesRemoved := linesRemoved data; reviewTime := [];
     status := status data; issues := List.map blank_issue (issues data);
     summary := [] |}.

(** What one code unit becomes. *)
Inductive escaped_unit (c : jschar) : jsstring -> Prop :=
| esc_amp : c = amp -> escaped_unit c (lit "&amp;")
| esc_lt : c = lt_sign -> escaped_unit c (lit "&lt;")
| esc_gt : c = gt_sign -> escaped_unit c (lit "&gt;")
| esc_quot : c = dquote -> escaped_unit c (lit "&quot;")
| esc_same :
    c <> amp -> c <> lt_sign -> c <> gt_sign -> c <> dquote ->
    escaped_unit c [c].

(** The code units of a rendered integer. *)
Definition numeric (c : jschar) : Prop := is_digit c = true \/ c = minus_sign.

(** The payload with another issue list. *)
Definition with_issues (data : TelegramNotificationRequest)
    (l : list ReviewIssue) : TelegramNotificationRequest :=
  {| mrTitle := mrTitle data; mrUrl := mrUrl data; author := author data;
     filesChanged := filesChanged data; linesAdded := linesAdded data;
     linesRemoved := linesRemoved data; reviewTime := reviewTime data;
     status := status data; issues := l; summary := summary data |}.

(** ** Sample inputs *)

Definition sample_issue (m : jsstring) : ReviewIssue :=
  {| id := lit "1"; file := lit "src/app.ts"; line := 12; severity := warning;
     message := m; rule := lit "no-unused-vars"; suggestion := None |}.

Definition sample_payload (l : list ReviewIssue) : TelegramNotificationRequest :=
  {| mrTitle := lit "Add <widget> & gadget";
     mrUrl := lit "https://gitlab.com/acme/widgets/-/merge_requests/7";
     author := lit "bob"; filesChanged := 3; linesAdded := 10;
     linesRemoved := 2; reviewTime := lit "2.1s"; status := warnings;
     issues := l; summary := lit "Looks fine" |}.


Definition sample_request : Request :=
  {| method := lit "POST"; body := inr (Typed (sample_payload [])) |}.


(** A Bot API that refuses every call with the given code and description. *)
Definition refusing (code : Z) (d : jsstring) : jsstring -> jsstring -> jsstring -> ApiOutcome :=
  fun _ _ _ =>
    ApiReplies false
      {| error_code := Some code; description := Some d; message_id := None |}.

(** A message of 85 code units. *)
Definition long_text : jsstring := repeat 120%N 85.

(** ** The truncation of issue messages, as the specification states it *)

(** The number of characters of a text: a surrogate pair is one character. *)
Fixpoint characters (s : jsstring) : nat :=
  match s with
  | [] => 0
  | c :: rest =>
      match rest with
      | d :: rest' =>
          if is_high_surrogate c && is_low_surrogate d
          then Datatypes.S (characters rest')
          else Datatypes.S (characters rest)
      | [] => 1
      end
  end.

(** The second half of the claim as the specification states it: among the
    first five issues, a message of 80 characters or fewer appears in full
    (escaped) in the rendered message. *)
Definition short_messages_appear_in_full : Prop :=
  forall data i issue,
    nth_error (issues data) i = Some issue -> i < 5 ->
    characters (message issue) <= 80 ->
    includes (buildTelegramMessage data) (escapeHtml (message issue)) = true.

(** 79 letters and U+1F600: 80 characters in 81 code units. *)
Definition eighty_characters : jsstring :=
  repeat 120%N 79 ++ [0xD83D%N; 0xDE00%N].

End Telegram.

(** * The CodeDiff page: file selection and view mode *)

Module Viewer.
Import CodeDiff.

Definition setViewMode (m : ViewMode) (ui : UI) : UI :=
  {| mrUrl := mrUrl ui; isLoading := isLoading ui;
     filesChanged := filesChanged ui; selectedFile := selectedFile ui;
     diffHtml := diffHtml ui; viewMode := m; mrTitle := mrTitle ui;
     mrAuthor := mrAuthor ui; toasts := toasts ui |}.

(** [viewMode === 'side-by-side' ? 'side-by-side' : 'line-by-line'] *)
Definition outputFormatOf (m : ViewMode) : OutputFormat :=
  match m with
  | side_by_side => fmt_side_by_side
  | unified => fmt_line_by_line
  end.

(** The text handed to diff2html. *)
Definition diffStringOf (patch filename : jsstring) : jsstring :=
  lit "diff --git a/" ++ filename ++ lit " b/" ++ filename ++ [newline] ++ patch.

Definition render_error_toast : Toast :=
  {| toast_title := lit "Error generating diff";
     toast_description :=
       lit "Failed to parse the diff. The patch format might be invalid.";
     toast_destructive := true |}.

Section Handlers.
Variable diff2html : OutputFormat -> jsstring -> option jsstring.

(** [generateDiffHtml] as a closure of one render: [viewMode] is the constant
    that render bound, whatever has been written to the state since. *)
Definition generateDiffHtmlOf (render : UI) (patch filename : jsstring) : M unit :=
  fun ui =>
    match diff2html (outputFormatOf (viewMode render)) (diffStringOf patch filename) with
    | Some diffHtmlOutput => set_state (setDiffHtml diffHtmlOutput) ui
    | None => set_state (toast render_error_toast) ui
    end.

Definition handleFileSelect (file : FileChange) : M unit :=
  fun ui0 =>
    (set_state (setSelectedFile (Some file)) ;;
     match patch file with
     | Some (c :: p) => generateDiffHtmlOf ui0 (c :: p) (filename file)
     | _ => ret tt
     end) ui0.

(** [selectedFile] and [generateDiffHtml] are those of the render the handler
    belongs to. *)
Definition handleViewModeChange (mode : ViewMode) : M unit :=
  fun ui0 =>
    (set_state (setViewMode mode) ;;
     match selectedFile ui0 with
     | Some f =>
         match patch f with
         | Some (c :: p) => generateDiffHtmlOf ui0 (c :: p) (filename f)
         | _ => ret tt
         end
     | None => ret tt
     end) ui0.
End Handlers.



(** A lone low surrogate as owner: [encodeURIComponent] throws on it. *)
Definition lone_surrogate_url : jsstring :=
  lit "https://gitlab.com/" ++ [0xDC00%N] ++ lit "/widgets/-/merge_requests/7".

(** [s] holds no GitHub pull-request shape. *)
Definition no_github_shape (s : jsstring) : Prop :=
  forall pre r post, occurs s pre r post -> platform r = gitlab.

(** A renderer that answers with the name of the format it was asked for. *)
Definition format_name : OutputFormat -> jsstring -> option jsstring :=
  fun fmt _ =>
    Some (match fmt with
          | fmt_side_by_side => lit "side-by-side"
          | fmt_line_by_line => lit "line-by-line"
          end).

Definition text_file : FileChange :=
  {| filename := lit "src/app.ts"; status := modified; additions := 1;
     deletions := 0; patch := Some (lit "@@ -1 +1,2 @@") |}.


Definition binary_file : FileChange :=
  {| filename := lit "logo.png"; status := added; additions := 0;
     deletions := 0; patch := None |}.

End Viewer.

(** * The Telegram function: further notions *)

Module TelegramNotions.
Import Telegram.

(** None of the four characters [escapeHtml] replaces. *)
Definition plain_char (c : jschar) : bool :=
  negb ((c =? amp) || (c =? lt_sign) || (c =? gt_sign) || (c =? dquote))%N.


(** A Bot API that accepts every message. *)
Definition accepting : jsstring -> jsstring -> jsstring -> ApiOutcome :=
  fun _ _ _ =>
    ApiReplies true
      {| error_code := None; description := None; message_id := Some 7%Z |}.

Definition env_without_token : Env :=
  {| TELEGRAM_BOT_TOKEN := None; TELEGRAM_CHAT_ID := Some (lit "-1001") |}.

End TelegramNotions.

(** * The LLM configuration panel *)

Module LLMConfig.
Import CodeDiff.

(** ** Providers and the configuration *)

(** What the panel passes as [value: any]: a string or a boolean. *)
Inductive Value :=
| VString (s : jsstring)
| VBool (b : bool).

(** [keyof LLMProvider] *)
Inductive Field := f_provider | f_model | f_api_key | f_enabled.

(** An object with keys among those of [LLMProvider]; an absent key is
    [None]. *)
Record LLMProvider := {
  provider : option Value;
  model : option Value;
  api_key : option Value;
  enabled : option Value
}.

(** An array element: an object, the value [undefined], or a hole (an index
    below [length] that was never written). *)
Inductive Slot :=
| Hole
| Undefined
| Item (p : LLMProvider).

Record ProjectLLMConfig := {
  id : jsstring;
  project_id : jsstring;
  project_name : jsstring;
  llm_providers : list Slot;
  default_provider : jsstring;
  created_at : jsstring;
  updated_at : jsstring
}.

(** [AVAILABLE_PROVIDERS[value]?.models || []] *)
Definition available_models (value : jsstring) : list jsstring :=
  if jseqb value (lit "gemini") then
    [lit "gemini-1.5-pro"; lit "gemini-1.5-flash"; lit "gemini-2.0-flash"]
  else if jseqb value (lit "openai") then
    [lit "gpt-4o"; lit "gpt-4-turbo"; lit "gpt-4"; lit "gpt-3.5-turbo"]
  else if jseqb value (lit "anthropic") then
    [lit "claude-3-opus"; lit "claude-3-sonnet"; lit "claude-3-haiku"]
  else [].

(** ** Array and object operations *)

(** [[...array]]: a copy in which holes read as [undefined]. *)
Definition spread (l : list Slot) : list Slot :=
  List.map (fun s => match s with Hole => Undefined | _ => s end) l.

(** [array[index]] as a value: [undefined] for a hole or past the end. *)
Definition element (l : list Slot) (index : nat) : option LLMProvider :=
  match nth_error l index with
  | Some (Item p) => Some p
  | _ => None
  end.

(** [array[index] = v]: past the end the array grows, leaving holes. *)
Fixpoint assign (l : list Slot) (index : nat) (v : Slot) : list Slot :=
  match index, l with
  | 0, [] => [v]
  | 0, _ :: rest => v :: rest
  | S i, [] => Hole :: assign [] i v
  | S i, x :: rest => x :: assign rest i v
  end.

(** [array.filter((_, i) => i !== index)], [i] counting from [from]: holes
    are not visited and are left out of the result. *)
Fixpoint filter_other (l : list Slot) (from index : nat) : list Slot :=
  match l with
  | [] => []
  | Hole :: rest => filter_other rest (S from) index
  | x :: rest =>
      if from =? index then filter_other rest (S from) index
      else x :: filter_other rest (S from) index
  end.

Definition empty_object : LLMProvider :=
  {| provider := None; model := None; api_key := None; enabled := None |}.

(** [{ ...object, [field]: value }] *)
Definition set_field (object : option LLMProvider) (field : Field) (value : Value)
    : LLMProvider :=
  let o := match object with
           | Some p => p
           | None => empty_object
           end in
  match field with
  | f_provider =>
      {| provider := Some value; model := model o; api_key := api_key o;
         enabled := enabled o |}
  | f_model =>
      {| provider := provider o; model := Some value; api_key := api_key o;
         enabled := enabled o |}
  | f_api_key =>
      {| provider := provider o; model := model o; api_key := Some value;
         enabled := enabled o |}
  | f_enabled =>
      {| provider := provider o; model := model o; api_key := api_key o;
         enabled := Some value |}
  end.

(** [{ ...config, llm_providers: l }] *)
Definition with_providers (config : ProjectLLMConfig) (l : list Slot)
    : ProjectLLMConfig :=
  {| id := id config; project_id := project_id config;
     project_name := project_name config; llm_providers := l;
     default_provider := default_provider config;
     created_at := created_at config; updated_at := updated_at config |}.

(** ** The handlers

    A handler belongs to one render and reads that render's [config]; what it
    passes to [setConfig] replaces the state.  The first argument is the
    render's [config], the last the state cell the handler writes. *)

Definition Cell : Type := option ProjectLLMConfig.

Definition newProvider : LLMProvider :=
  {| provider := Some (VString (lit "gemini"));
     model := Some (VString (lit "gemini-1.5-pro"));
     api_key := Some (VString []);
     enabled := Some (VBool true) |}.

Definition addProvider (config : Cell) : Cell -> Cell :=
  fun state =>
    match config with
    | None => state
    | Some c =>
        Some (with_providers c (spread (llm_providers c) ++ [Item newProvider]))
    end.

Definition removeProvider (config : Cell) (index : nat) : Cell -> Cell :=
  fun state =>
    match config with
    | None => state
    | Some c =>
        let newProviders := filter_other (llm_providers c) 0 index in
        Some (with_providers c newProviders)
    end.

Definition updateProvider (config : Cell) (index : nat) (field : Field)
    (value : Value) : Cell -> Cell :=
  fun state =>
    match config with
    | None => state
    | Some c =>
        let newProviders := spread (llm_providers c) in
        let newProviders :=
          assign newProviders index
            (Item (set_field (element newProviders index) field value)) in
        Some (with_providers c newProviders)
    end.

(** [onValueChange] of the provider select of entry [index]. *)
Definition onProviderChange (config : Cell) (index : nat) (value : jsstring)
    : Cell -> Cell :=
  fun state =>
    let state := updateProvider config index f_provider (VString value) state in
    let models := available_models value in
    match models with
    | first :: _ => updateProvider config index f_model (VString first) state
    | [] => state
    end.

(** An event: the handler of the current render runs on the current state. *)
Definition fire (handler : Cell -> Cell -> Cell) (state : Cell) : Cell :=
  handler state state.

(** [showApiKeys]: the keys are entry indices; an absent key is [None]. *)
Definition Visibility : Type := nat -> option bool.

Definition shown (v : Visibility) (index : nat) : bool :=
  match v index with
  | Some b => b
  | None => false
  end.

Definition toggleApiKeyVisibility (showApiKeys : Visibility) (index : nat)
    : Visibility :=
  fun k => if k =? index then Some (negb (shown showApiKeys index))
           else showApiKeys k.

(** ** Loading and saving *)

Record Panel := {
  config : Cell;
  isLoading : bool;
  isSaving : bool;
  notices : list Toast
}.

(** What a request to the backend comes to: [fetch] throws, or a response
    with its [ok] flag and JSON. *)
Inductive Answer :=
| Unreachable (message : jsstring)
| Answered (ok : bool) (data : ProjectLLMConfig).

Definition notify (t : Toast) (p : Panel) : Panel :=
  {| config := config p; isLoading := isLoading p; isSaving := isSaving p;
     notices := notices p ++ [t] |}.

Definition setConfig (c : Cell) (p : Panel) : Panel :=
  {| config := c; isLoading := isLoading p; isSaving := isSaving p;
     notices := notices p |}.

Definition setIsSaving (b : bool) (p : Panel) : Panel :=
  {| config := config p; isLoading := isLoading p; isSaving := b;
     notices := notices p |}.

Definition setPanelLoading (b : bool) (p : Panel) : Panel :=
  {| config := config p; isLoading := b; isSaving := isSaving p;
     notices := notices p |}.

Definition saved_toast : Toast :=
  {| toast_title := lit "Configuration saved";
     toast_description := lit "Your LLM settings have been updated successfully.";
     toast_destructive := false |}.

Definition save_failed_toast (e : jsstring) : Toast :=
  {| toast_title := lit "Failed to save configuration";
     toast_description := e;
     toast_destructive := true |}.

Definition load_failed_toast (e : jsstring) : Toast :=
  {| toast_title := lit "Failed to load configuration";
     toast_description := e;
     toast_destructive := true |}.

(** [post] is the backend's answer to the POST of the four saved fields. *)
Definition saveConfiguration
    (post : jsstring -> jsstring -> list Slot -> jsstring -> Answer)
    (p0 : Panel) : Panel :=
  match config p0 with
  | None => p0
  | Some c =>
      let p := setIsSaving true p0 in
      let p :=
        match post (project_id c) (project_name c) (llm_providers c)
                (default_provider c) with
        | Answered true data => notify saved_toast (setConfig (Some data) p)
        | Answered false _ =>
            notify (save_failed_toast (lit "Failed to save configuration")) p
        | Unreachable e => notify (save_failed_toast e) p
        end in
      setIsSaving false p
  end.

Definition loadConfiguration (get : Answer) (p0 : Panel) : Panel :=
  let p := setPanelLoading true p0 in
  let p :=
    match get with
    | Answered true data => setConfig (Some data) p
    | Answered false _ =>
        notify (load_failed_toast (lit "Failed to load configuration")) p
    | Unreachable e => notify (load_failed_toast e) p
    end in
  setPanelLoading false p.

(** ** Notions used below *)

Definition no_holes (l : list Slot) : Prop :=
  forall s, In s l -> s <> Hole.

Definition providers_of (state : Cell) : list Slot :=
  match state with
  | Some c => llm_providers c
  | None => []
  end.

(** ** Sample inputs *)

Definition sample_config : ProjectLLMConfig :=
  {| id := lit "1"; project_id := lit "default-project";
     project_name := lit "Widgets";
     llm_providers := [Item newProvider];
     default_provider := lit "gemini";
     created_at := lit "2024-01-01"; updated_at := lit "2024-01-02" |}.

Definition sample_panel : Panel :=
  {| config := Some sample_config; isLoading := false; isSaving := false;
     notices := [] |}.

Definition backend_down : jsstring -> jsstring -> list Slot -> jsstring -> Answer :=
  fun _ _ _ _ => Answered false sample_config.

End LLMConfig.

(** * The settings page: token verification *)

Module Settings.
Import CodeDiff.

(** The state cells the two verification handlers touch.  The token store
    ([useTokenStorage]) lives outside the page: the calls to its setters
    [setGitlabToken] and [setGithubToken] are recorded, oldest first. *)
Record Page := {
  localGitlabToken : jsstring;
  localGithubToken : jsstring;
  gitlabVerified : bool;
  githubVerified : bool;
  verifyingGitlab : bool;
  verifyingGithub : bool;
  gitlabTokenWrites : list jsstring;
  githubTokenWrites : list jsstring;
  notices : list Toast
}.

(** What [response.json()] gives: it throws, or the body is [null] (reading
    a field of it throws), or it is another value, with the user name as the
    template literal will show it, [None] when the field is absent. *)
Inductive UserJson :=
| JsonThrows
| JsonNull
| JsonValue (name : option jsstring).

(** The request to the platform's [user] endpoint: [fetch] throws, or a
    response with its [ok] flag and its body. *)
Inductive UserAnswer :=
| FetchThrows
| Responded (ok : bool) (user : UserJson).

Definition notify (t : Toast) (p : Page) : Page :=
  {| localGitlabToken := localGitlabToken p; localGithubToken := localGithubToken p;
     gitlabVerified := gitlabVerified p; githubVerified := githubVerified p;
     verifyingGitlab := verifyingGitlab p; verifyingGithub := verifyingGithub p;
     gitlabTokenWrites := gitlabTokenWrites p;
     githubTokenWrites := githubTokenWrites p; notices := notices p ++ [t] |}.

Definition setGitlabVerified (b : bool) (p : Page) : Page :=
  {| localGitlabToken := localGitlabToken p; localGithubToken := localGithubToken p;
     gitlabVerified := b; githubVerified := githubVerified p;
     verifyingGitlab := verifyingGitlab p; verifyingGithub := verifyingGithub p;
     gitlabTokenWrites := gitlabTokenWrites p;
     githubTokenWrites := githubTokenWrites p; notices := notices p |}.

Definition setGithubVerified (b : bool) (p : Page) : Page :=
  {| localGitlabToken := localGitlabToken p; localGithubToken := localGithubToken p;
     gitlabVerified := gitlabVerified p; githubVerified := b;
     verifyingGitlab := verifyingGitlab p; verifyingGithub := verifyingGithub p;
     gitlabTokenWrites := gitlabTokenWrites p;
     githubTokenWrites := githubTokenWrites p; notices := notices p |}.

Definition setVerifyingGitlab (b : bool) (p : Page) : Page :=
  {| localGitlabToken := localGitlabToken p; localGithubToken := localGithubToken p;
     gitlabVerified := gitlabVerified p; githubVerified := githubVerified p;
     verifyingGitlab := b; verifyingGithub := verifyingGithub p;
     gitlabTokenWrites := gitlabTokenWrites p;
     githubTokenWrites := githubTokenWrites p; notices := notices p |}.

Definition setVerifyingGithub (b : bool) (p : Page) : Page :=
  {| localGitlabToken := localGitlabToken p; localGithubToken := localGithubToken p;
     gitlabVerified := gitlabVerified p; githubVerified := githubVerified p;
     verifyingGitlab := verifyingGitlab p; verifyingGithub := b;
     gitlabTokenWrites := gitlabTokenWrites p;
     githubTokenWrites := githubTokenWrites p; notices := notices p |}.

Definition setGitlabToken (token : jsstring) (p : Page) : Page :=
  {| localGitlabToken := localGitlabToken p; localGithubToken := localGithubToken p;
     gitlabVerified := gitlabVerified p; githubVerified := githubVerified p;
     verifyingGitlab := verifyingGitlab p; verifyingGithub := verifyingGithub p;
     gitlabTokenWrites := gitlabTokenWrites p ++ [token];
     githubTokenWrites := githubTokenWrites p; notices := notices p |}.

Definition setGithubToken (token : jsstring) (p : Page) : Page :=
  {| localGitlabToken := localGitlabToken p; localGithubToken := localGithubToken p;
     gitlabVerified := gitlabVerified p; githubVerified := githubVerified p;
     verifyingGitlab := verifyingGitlab p; verifyingGithub := verifyingGithub p;
     gitlabTokenWrites := gitlabTokenWrites p;
     githubTokenWrites := githubTokenWrites p ++ [token]; notices := notices p |}.

(** A possibly absent field inside a template literal. *)
Definition show_field (v : option jsstring) : jsstring :=
  match v with
  | Some s => s
  | None => lit "undefined"
  end.

Definition token_required (platform_name : jsstring) : Toast :=
  {| toast_title := lit "Token required";
     toast_description :=
       lit "Please enter your " ++ platform_name ++ lit " token first.";
     toast_destructive := true |}.

Definition connected (platform_name : jsstring) (user : option jsstring) : Toast :=
  {| toast_title := platform_name ++ lit " connected";
     toast_description := lit "Successfully connected as " ++ show_field user;
     toast_destructive := false |}.

Definition verification_failed (platform_name : jsstring) : Toast :=
  {| toast_title := lit "Verification failed";
     toast_description :=
       lit "Invalid " ++ platform_name ++ lit " token. Please check and try again.";
     toast_destructive := true |}.

(** [api] answers the request made with the token as [PRIVATE-TOKEN]. *)
Definition verifyGitlabToken (api : jsstring -> UserAnswer) (p0 : Page) : Page :=
  match localGitlabToken p0 with
  | [] => notify (token_required (lit "GitLab")) p0
  | _ =>
      let p := setVerifyingGitlab true p0 in
      let p :=
        match api (localGitlabToken p0) with
        | Responded true (JsonValue user) =>
            notify (connected (lit "GitLab") user)
              (setGitlabVerified true (setGitlabToken (localGitlabToken p0) p))
        | Responded true JsonNull =>
            (* the token is stored and the flag set before the template
               literal reads the user name of [null] and throws *)
            notify (verification_failed (lit "GitLab"))
              (setGitlabVerified false
                 (setGitlabVerified true (setGitlabToken (localGitlabToken p0) p)))
        | _ =>
            notify (verification_failed (lit "GitLab")) (setGitlabVerified false p)
        end in
      setVerifyingGitlab false p
  end.

(** [api] answers the request made with the token as bearer. *)
Definition verifyGithubToken (api : jsstring -> UserAnswer) (p0 : Page) : Page :=
  match localGithubToken p0 with
  | [] => notify (token_required (lit "GitHub")) p0
  | _ =>
      let p := setVerifyingGithub true p0 in
      let p :=
        match api (localGithubToken p0) with
        | Responded true (JsonValue user) =>
            notify (connected (lit "GitHub") user)
              (setGithubVerified true (setGithubToken (localGithubToken p0) p))
        | Responded true JsonNull =>
            (* the token is stored and the flag set before the template
               literal reads the user name of [null] and throws *)
            notify (verification_failed (lit "GitHub"))
              (setGithubVerified false
                 (setGithubVerified true (setGithubToken (localGithubToken p0) p)))
        | _ =>
            notify (verification_failed (lit "GitHub")) (setGithubVerified false p)
        end in
      setVerifyingGithub false p
  end.

(** A page with a typed GitLab and GitHub token, nothing verified. *)
Definition sample_page : Page :=
  {| localGitlabToken := lit "glpat-1"; localGithubToken := lit "ghp_1";
     gitlabVerified := false; githubVerified := false;
     verifyingGitlab := false; verifyingGithub := false;
     gitlabTokenWrites := []; githubTokenWrites := []; notices := [] |}.

(** A platform that answers every token with status ok and the body [null]. *)
Definition null_user : jsstring -> UserAnswer :=
  fun _ => Responded true JsonNull.

End Settings.

(** * Facts about strings *)

Module StringFacts.

(** [encodeURIComponent] on a project path, and on text outside ASCII. *)
Lemma encodeURIComponent_samples :
  encodeURIComponent (lit "acme/widgets") = Some (lit "acme%2Fwidgets") /\
  encodeURIComponent [0xE9%N; 32%N; 0x20AC%N; 0xD83D%N; 0xDE00%N]
  = Some (lit "%C3%A9%20%E2%82%AC%F0%9F%98%80") /\
  encodeURIComponent [0xD83D%N; 97%N] = None.
Proof. vm_compute. repeat split. Qed.

Lemma strip_prefix_app p s : strip_prefix p (p ++ s) = Some s.
Proof.
  induction p as [|c p IH]; simpl; [reflexivity|].
  now rewrite N.eqb_refl.
Qed.

Lemma strip_prefix_Some p : forall s r, strip_prefix p s = Some r -> s = p ++ r.
Proof.
  induction p as [|c p IH]; simpl; intros s r H.
  - now inversion H.
  - destruct s as [|x s]; [discriminate|].
    destruct (N.eqb_spec x c) as [->|]; [|discriminate].
    now rewrite (IH _ _ H).
Qed.

Lemma strip_prefix_head c p x s :
  x <> c -> strip_prefix (c :: p) (x :: s) = None.
Proof.
  intros H; simpl. now destruct (N.eqb_spec x c).
Qed.

Lemma take_drop_while p s : take_while p s ++ drop_while p s = s.
Proof.
  induction s as [|x s IH]; simpl; [reflexivity|].
  destruct (p x); simpl; [now rewrite IH | reflexivity].
Qed.

Lemma take_while_all p s : Forall (fun c => p c = true) (take_while p s).
Proof.
  induction s as [|x s IH]; simpl; [constructor|].
  destruct (p x) eqn:E; constructor; assumption.
Qed.

Lemma drop_while_stops p s : stops p (drop_while p s).
Proof.
  induction s as [|x s IH]; simpl; [exact I|].
  destruct (p x) eqn:E; simpl; assumption.
Qed.

Lemma take_while_app p a b :
  Forall (fun c => p c = true) a -> stops p b -> take_while p (a ++ b) = a.
Proof.
  induction 1 as [|x a Hx _ IH]; simpl; intros Hb.
  - destruct b as [|y b]; simpl in *; [reflexivity | now rewrite Hb].
  - rewrite Hx. now rewrite IH.
Qed.

Lemma drop_while_app p a b :
  Forall (fun c => p c = true) a -> stops p b -> drop_while p (a ++ b) = b.
Proof.
  induction 1 as [|x a Hx _ IH]; simpl; intros Hb.
  - destruct b as [|y b]; simpl in *; [reflexivity | now rewrite Hb].
  - rewrite Hx. now apply IH.
Qed.

Lemma take_while_nil p s : take_while p s = [] -> drop_while p s = s.
Proof.
  destruct s as [|x s]; simpl; [reflexivity|].
  now destruct (p x).
Qed.

End StringFacts.

(** * Facts about the matcher *)

Module RegexFacts.
Import Regex StringFacts.

Section PlusFacts.
Variable A : Type.
Variable k : charclass.
Variable cont : jsstring -> option jschar -> jsstring -> option A.

(** The rest of the pattern either never fails, or fails whenever the input
    goes on with a character of the class: in both cases no character is
    ever given back, and the group captures the longest run. *)
Hypothesis no_backtrack :
  forall cap p x t cap' p' t',
    in_class k x = true ->
    cont cap' p' t' = None ->
    cont cap p (x :: t) = None.

Lemma plus_k_longest : forall s acc,
  plus_k k cont acc s =
    match take_while (in_class k) s with
    | [] => None
    | c :: run =>
        cont (acc ++ c :: run) (last_of (c :: run) None)
          (drop_while (in_class k) s)
    end.
Proof.
  induction s as [|x t IH]; intros acc; simpl; [reflexivity|].
  destruct (in_class k x) eqn:Hx; [|reflexivity].
  rewrite IH.
  destruct (take_while (in_class k) t) as [|y run] eqn:Ht.
  - rewrite (take_while_nil _ _ Ht). reflexivity.
  - replace ((acc ++ [x]) ++ y :: run) with (acc ++ x :: y :: run)
      by (now rewrite <- app_assoc).
    replace (last_of (x :: y :: run) None) with (last_of (y :: run) None).
    2:{ unfold last_of. simpl. destruct (rev run ++ [y]) eqn:E.
        - now destruct (rev run).
        - reflexivity. }
    destruct (cont (acc ++ x :: y :: run) (last_of (y :: run) None)
                (drop_while (in_class k) t)) eqn:Hc; [reflexivity|].
    destruct t as [|y' t']; [discriminate|].
    simpl in Ht. destruct (in_class k y') eqn:Hy; [|discriminate].
    eapply no_backtrack; eauto.
Qed.
End PlusFacts.

(** Leftmost search. *)
Lemma exec_from_None re : forall s prev,
  exec_from re prev s = None <->
  (forall pre suf, s = pre ++ suf -> match_here re [] (last_of pre prev) suf = None).
Proof.
  induction s as [|x t IH]; intros prev; simpl.
  - destruct (match_here re [] prev []) as [[caps rest]|] eqn:E.
    + split; [discriminate|]. intros H. specialize (H [] [] eq_refl).
      unfold last_of in H; simpl in H. congruence.
    + split; [|reflexivity]. intros _ pre suf H.
      symmetry in H. apply app_eq_nil in H as [-> ->]. exact E.
  - destruct (match_here re [] prev (x :: t)) as [[caps rest]|] eqn:E.
    + split; [discriminate|]. intros H. specialize (H [] (x :: t) eq_refl).
      unfold last_of in H; simpl in H. congruence.
    + rewrite IH. split.
      * intros H [|y pre] suf Hs.
        -- simpl in Hs. subst suf. exact E.
        -- simpl in Hs. inversion Hs; subst y t.
           specialize (H pre suf eq_refl).
           replace (last_of (x :: pre) prev) with (last_of pre (Some x)); [exact H|].
           unfold last_of; simpl. destruct (rev pre); reflexivity.
      * intros H pre suf Hs. subst t.
        specialize (H (x :: pre) suf eq_refl).
        replace (last_of (x :: pre) prev) with (last_of pre (Some x)) in H; [exact H|].
        unfold last_of; simpl. destruct (rev pre); reflexivity.
Qed.

Lemma exec_from_Some re : forall s prev caps,
  exec_from re prev s = Some caps ->
  exists pre suf rest,
    s = pre ++ suf /\
    match_here re [] (last_of pre prev) suf = Some (caps, rest) /\
    (forall pre' suf', s = pre' ++ suf' -> List.length pre' < List.length pre ->
       match_here re [] (last_of pre' prev) suf' = None).
Proof.
  induction s as [|x t IH]; intros prev caps; simpl.
  - destruct (match_here re [] prev []) as [[c rest]|] eqn:E; [|discriminate].
    intros H; inversion H; subst c.
    exists [], [], rest. repeat split; [exact E|]. simpl; lia.
  - destruct (match_here re [] prev (x :: t)) as [[c rest]|] eqn:E.
    + intros H; inversion H; subst c.
      exists [], (x :: t), rest. repeat split; [exact E|]. simpl; lia.
    + intros H. destruct (IH _ _ H) as (pre & suf & rest & -> & Hm & Hmin).
      exists (x :: pre), suf, rest.
      assert (Hl : forall p, last_of (x :: p) prev = last_of p (Some x)).
      { intros p. unfold last_of; simpl. destruct (rev p); reflexivity. }
      split; [reflexivity|]. split; [now rewrite Hl|].
      intros [|y pre'] suf' Hs Hlen.
      * simpl in Hs. subst suf'. exact E.
      * simpl in Hs. inversion Hs; subst y. rewrite Hl.
        apply Hmin; [assumption | simpl in Hlen; lia].
Qed.

Lemma plus_k_ext A k (c1 c2 : jsstring -> option jschar -> jsstring -> option A) :
  (forall cap p p' rest, c1 cap p rest = c2 cap p' rest) ->
  forall s acc, plus_k k c1 acc s = plus_k k c2 acc s.
Proof.
  intros H. induction s as [|x t IH]; intros acc; simpl; [reflexivity|].
  destruct (in_class k x); [|reflexivity].
  rewrite IH. destruct (plus_k k c2 (acc ++ [x]) t); [reflexivity|]. apply H.
Qed.

Lemma match_here_prev : forall re, no_bol re = true ->
  forall caps p1 p2 s, match_here re caps p1 s = match_here re caps p2 s.
Proof.
  induction re as [|a re IH]; intros Hb caps p1 p2 s; [reflexivity|].
  unfold no_bol in Hb. simpl in Hb. apply andb_prop in Hb as [Ha Hre].
  destruct a; simpl; try discriminate.
  - destruct (strip_prefix l s); [now apply IH | reflexivity].
  - destruct s as [|x t]; [reflexivity|].
    destruct (in_class k x); [now apply IH | reflexivity].
  - apply plus_k_ext. intros. now apply IH.
Qed.

(** One literal. *)
Lemma match_here_lit l re caps prev s :
  no_bol re = true ->
  match_here (ALit l :: re) caps prev s =
    match strip_prefix l s with
    | Some s' => match_here re caps None s'
    | None => None
    end.
Proof.
  intros Hb. simpl. destruct (strip_prefix l s); [|reflexivity].
  now apply match_here_prev.
Qed.

(** One group, when the rest of the pattern never makes it give back. *)
Lemma match_here_group k re caps prev s :
  no_bol re = true ->
  (forall c1 p1 x t c2 p2 t',
      in_class k x = true ->
      match_here re c2 p2 t' = None ->
      match_here re c1 p1 (x :: t) = None) ->
  match_here (ACapPlus k :: re) caps prev s =
    match take_while (in_class k) s with
    | [] => None
    | c :: run =>
        match_here re (caps ++ [c :: run]) None (drop_while (in_class k) s)
    end.
Proof.
  intros Hb Hnb. simpl. rewrite plus_k_longest.
  - destruct (take_while (in_class k) s); [reflexivity|].
    now apply match_here_prev.
  - intros; eapply Hnb; eauto.
Qed.

End RegexFacts.

(** * Facts about the URL resolver *)

Module CodeDiffFacts.
Import Regex StringFacts RegexFacts CodeDiff.

Lemma not_slash_class c : in_class (CNot slash) c = true <-> c <> slash.
Proof.
  simpl. destruct (N.eqb_spec c slash); simpl; split; congruence.
Qed.

(** The pattern of both platforms, at one position. *)
Lemma match_here_shape host mid prev s :
  match_here
    [ ALit host; ACapPlus (CNot slash); ALit [slash]; ACapPlus (CNot slash);
      ALit (slash :: mid); ACapPlus CDigit ] [] prev s
  = shape_at host (slash :: mid) s.
Proof.
  unfold shape_at.
  assert (Hlit : forall l re c1 p1 x t (c2 : list jsstring) (p2 : option jschar)
                   (t' : jsstring),
             in_class (CNot slash) x = true ->
             match_here (ALit (slash :: l) :: re) c2 p2 t' = None ->
             match_here (ALit (slash :: l) :: re) c1 p1 (x :: t) = None).
  { intros l re c1 p1 x t c2 p2 t' Hx _. apply not_slash_class in Hx.
    cbn [match_here]. now rewrite strip_prefix_head. }
  rewrite match_here_lit by reflexivity.
  destruct (strip_prefix host s) as [s1|]; [|reflexivity].
  rewrite match_here_group; [|reflexivity|apply Hlit].
  destruct (take_while (in_class (CNot slash)) s1) as [|c1 o]; [reflexivity|].
  rewrite match_here_lit by reflexivity.
  destruct (strip_prefix [slash] (drop_while (in_class (CNot slash)) s1)) as [s2|];
    [|reflexivity].
  rewrite match_here_group; [|reflexivity|apply Hlit].
  destruct (take_while (in_class (CNot slash)) s2) as [|c2 r]; [reflexivity|].
  rewrite match_here_lit by reflexivity.
  destruct (strip_prefix (slash :: mid) (drop_while (in_class (CNot slash)) s2))
    as [s3|]; [|reflexivity].
  rewrite match_here_group; [|reflexivity|].
  - change (in_class CDigit) with is_digit.
    destruct (take_while is_digit s3); reflexivity.
  - intros c3 p1 x t c4 p2 t' _ H. discriminate H.
Qed.

Lemma segment_class o :
  segment o <-> o <> [] /\ Forall (fun c => in_class (CNot slash) c = true) o.
Proof.
  unfold segment. split; intros [H1 H2]; (split; [exact H1|]);
    (eapply Forall_impl; [|exact H2]); intros c; apply not_slash_class.
Qed.

Lemma shape_at_iff host mid s caps rest :
  shape_at host (slash :: mid) s = Some (caps, rest) <->
  exists o r n,
    caps = [o; r; n] /\
    s = host ++ o ++ [slash] ++ r ++ (slash :: mid) ++ n ++ rest /\
    segment o /\ segment r /\ number n /\ stops is_digit rest.
Proof.
  unfold shape_at. split.
  - destruct (strip_prefix host s) as [s1|] eqn:E1; [|discriminate].
    apply strip_prefix_Some in E1.
    pose proof (take_drop_while (in_class (CNot slash)) s1) as T1.
    pose proof (take_while_all (in_class (CNot slash)) s1) as A1.
    destruct (take_while (in_class (CNot slash)) s1) as [|c1 o] eqn:Eo; [discriminate|].
    destruct (strip_prefix [slash] (drop_while (in_class (CNot slash)) s1))
      as [s2|] eqn:E2; [|discriminate].
    apply strip_prefix_Some in E2.
    pose proof (take_drop_while (in_class (CNot slash)) s2) as T2.
    pose proof (take_while_all (in_class (CNot slash)) s2) as A2.
    destruct (take_while (in_class (CNot slash)) s2) as [|c2 r] eqn:Er; [discriminate|].
    destruct (strip_prefix (slash :: mid) (drop_while (in_class (CNot slash)) s2))
      as [s3|] eqn:E3; [|discriminate].
    apply strip_prefix_Some in E3.
    pose proof (take_drop_while is_digit s3) as T3.
    pose proof (take_while_all is_digit s3) as A3.
    pose proof (drop_while_stops is_digit s3) as D3.
    destruct (take_while is_digit s3) as [|c3 n] eqn:En; [discriminate|].
    intros H; inversion H; subst caps rest.
    exists (c1 :: o), (c2 :: r), (c3 :: n).
    split; [reflexivity|]. split.
    + remember (drop_while is_digit s3) as d3.
      remember (drop_while (in_class (CNot slash)) s2) as d2.
      remember (drop_while (in_class (CNot slash)) s1) as d1.
      rewrite E1, <- T1, E2, <- T2, E3, <- T3.
      repeat rewrite <- app_assoc. reflexivity.
    + repeat split; try discriminate; try assumption.
      * apply segment_class. split; [discriminate | assumption].
      * apply segment_class. split; [discriminate | assumption].
  - intros (o & r & n & -> & -> & Ho & Hr & [Hn1 Hn2] & Hs).
    apply segment_class in Ho as [Ho1 Ho2]. apply segment_class in Hr as [Hr1 Hr2].
    rewrite strip_prefix_app.
    assert (Hsl : forall t, stops (in_class (CNot slash)) (slash :: t))
      by (intros t; reflexivity).
    rewrite take_while_app, drop_while_app by (auto; apply Hsl).
    destruct o as [|c1 o]; [congruence|].
    change ([slash] ++ r ++ (slash :: mid) ++ n ++ rest)
      with ([slash] ++ (r ++ (slash :: mid) ++ n ++ rest)).
    rewrite strip_prefix_app.
    rewrite take_while_app, drop_while_app by (auto; apply Hsl).
    destruct r as [|c2 r]; [congruence|].
    rewrite strip_prefix_app.
    rewrite take_while_app, drop_while_app by auto.
    destruct n as [|c3 n]; [congruence|]. reflexivity.
Qed.

(** Whatever follows the number, a shape at the start of the input is found. *)
Lemma shape_at_complete host mid o r n post :
  segment o -> segment r -> number n ->
  shape_at host (slash :: mid)
    (host ++ o ++ [slash] ++ r ++ (slash :: mid) ++ n ++ post) <> None.
Proof.
  intros Ho Hr [Hn1 Hn2].
  assert (H : shape_at host (slash :: mid)
                (host ++ o ++ [slash] ++ r ++ (slash :: mid) ++ n ++ post)
              = Some ([o; r; n ++ take_while is_digit post],
                      drop_while is_digit post)).
  { apply shape_at_iff. exists o, r, (n ++ take_while is_digit post).
    split; [reflexivity|]. split.
    - rewrite <- (app_assoc n), take_drop_while. reflexivity.
    - split; [exact Ho|]. split; [exact Hr|]. split; [split|].
      + destruct n; [congruence | discriminate].
      + apply Forall_app. split; [assumption | apply take_while_all].
      + apply drop_while_stops. }
  congruence.
Qed.

Lemma match_here_re_of p prev s :
  match_here (re_of p) [] prev s = shape_at (host_of p) (infix_of p) s.
Proof.
  destruct p.
  - exact (match_here_shape (lit "github.com/") (lit "pull/") prev s).
  - exact (match_here_shape (lit "gitlab.com/") (lit "-/merge_requests/") prev s).
Qed.

Lemma infix_of_slash p : exists mid, infix_of p = slash :: mid.
Proof. destruct p; eexists; reflexivity. Qed.

(** An occurrence of a shape is a position where the pattern matches. *)
Lemma occurs_matches url pre r post prev :
  occurs url pre r post ->
  match_here (re_of (platform r)) [] prev (shape_text r ++ post) <> None.
Proof.
  intros [_ (Ho & Hr & Hn)]. rewrite match_here_re_of.
  destruct (infix_of_slash (platform r)) as [mid Hmid].
  unfold shape_text. rewrite Hmid. repeat rewrite <- app_assoc.
  now apply shape_at_complete.
Qed.

Lemma exec_None_no_occurrence url pre r post :
  exec (re_of (platform r)) url = None -> ~ occurs url pre r post.
Proof.
  intros He Hoc. unfold exec in He.
  pose proof (proj1 (exec_from_None _ _ _) He pre (shape_text r ++ post)) as H.
  apply (occurs_matches (last_of pre None) Hoc). apply H. apply Hoc.
Qed.

(** The leftmost match of a platform's pattern is an occurrence of its shape,
    with the longest number, and no occurrence starts before it. *)
Lemma exec_Some_occurrence p url m :
  exec (re_of p) url = Some m ->
  let r := {| platform := p; owner := group m 1; repo := group m 2;
              mrNumber := group m 3 |} in
  exists pre post,
    occurs url pre r post /\ stops is_digit post /\
    (forall pre' r' post',
        occurs url pre' r' post' -> platform r' = p ->
        List.length pre <= List.length pre').
Proof.
  intros He r. unfold exec in He.
  apply exec_from_Some in He as (pre & suf & rest & Hurl & Hm & Hmin).
  rewrite match_here_re_of in Hm.
  destruct (infix_of_slash p) as [mid Hmid]. rewrite Hmid in Hm.
  apply shape_at_iff in Hm as (o & rr & n & -> & Hsuf & Ho & Hr & Hn & Hs).
  exists pre, rest. split; [|split].
  - split; [|exact (conj Ho (conj Hr Hn))].
    unfold shape_text, r, group; cbn [platform owner repo mrNumber nth Nat.sub].
    rewrite Hmid, Hurl, Hsuf.
    repeat (rewrite <- app_assoc; cbn [app]). reflexivity.
  - exact Hs.
  - intros pre' r' post' Hoc Hp.
    destruct (Nat.le_gt_cases (List.length pre) (List.length pre')) as [|Hlt];
      [assumption|exfalso].
    apply (occurs_matches (last_of pre' None) Hoc).
    rewrite Hp. apply Hmin; [apply Hoc | exact Hlt].
Qed.

Lemma parseMRUrl_cases url :
  match parseMRUrl url with
  | Some r =>
      exists m, exec (re_of (platform r)) url = Some m /\
        r = {| platform := platform r; owner := group m 1; repo := group m 2;
               mrNumber := group m 3 |} /\
        (platform r = gitlab -> exec githubRe url = None)
  | None => exec githubRe url = None /\ exec gitlabRe url = None
  end.
Proof.
  unfold parseMRUrl.
  destruct (exec githubRe url) as [m|] eqn:E1.
  - exists m. simpl. split; [exact E1|]. split; [reflexivity | discriminate].
  - destruct (exec gitlabRe url) as [m|] eqn:E2.
    + exists m. simpl. split; [exact E2|]. split; reflexivity.
    + split; reflexivity.
Qed.

(** C1, as amended: [parseMRUrl] finds a reference exactly when the string
    contains [github.com/{owner}/{repo}/pull/{digits}] or
    [gitlab.com/{owner}/{repo}/-/merge_requests/{digits}] anywhere, whatever
    comes before or after; the reference returned is the leftmost occurrence
    of its platform's shape with the longest run of digits as number, and the
    GitHub shape is looked for first. *)
Theorem parseMRUrl_leftmost_shape (url : jsstring) :
  (parseMRUrl url = None <-> ~ contains_shape url) /\
  (forall r, parseMRUrl url = Some r ->
     exists pre post,
       occurs url pre r post /\ stops is_digit post /\
       (forall pre' r' post',
           occurs url pre' r' post' -> platform r' = platform r ->
           List.length pre <= List.length pre') /\
       (forall pre' r' post',
           occurs url pre' r' post' -> platform r' = github ->
           platform r = github)).
Proof.
  assert (Hsome : forall r, parseMRUrl url = Some r ->
     exists pre post,
       occurs url pre r post /\ stops is_digit post /\
       (forall pre' r' post',
           occurs url pre' r' post' -> platform r' = platform r ->
           List.length pre <= List.length pre') /\
       (forall pre' r' post',
           occurs url pre' r' post' -> platform r' = github ->
           platform r = github)).
  { intros r Hr. pose proof (parseMRUrl_cases url) as Hc. rewrite Hr in Hc.
    destruct Hc as (m & He & Heq & Hgl).
    destruct (exec_Some_occurrence _ _ He) as (pre & post & Hoc & Hs & Hmin).
    rewrite <- Heq in Hoc.
    exists pre, post. repeat split; try assumption; try apply Hoc.
    intros pre' r' post' Hoc' Hp'.
    destruct (platform r) eqn:Ep; [reflexivity|exfalso].
    apply (@exec_None_no_occurrence url pre' r' post'); [|exact Hoc'].
    rewrite Hp'. now apply Hgl. }
  split; [|exact Hsome].
  split.
  - intros Hn (pre & r & post & Hoc).
    pose proof (parseMRUrl_cases url) as Hc. rewrite Hn in Hc.
    destruct Hc as [Hgh Hgl].
    apply (@exec_None_no_occurrence url pre r post); [|exact Hoc].
    destruct (platform r); assumption.
  - intros Hn. destruct (parseMRUrl url) as [r|] eqn:E; [exfalso|reflexivity].
    destruct (Hsome r eq_refl) as (pre & post & Hoc & _).
    apply Hn. now exists pre, r, post.
Qed.

(** The three URLs of the specification's scenarios. *)
Example parseMRUrl_github_scenario :
  parseMRUrl (lit "https://github.com/acme/widgets/pull/42")
  = Some {| platform := github; owner := lit "acme"; repo := lit "widgets";
            mrNumber := lit "42" |}.
Proof. reflexivity. Qed.

Example parseMRUrl_gitlab_scenario :
  parseMRUrl (lit "https://gitlab.com/acme/widgets/-/merge_requests/7")
  = Some {| platform := gitlab; owner := lit "acme"; repo := lit "widgets";
            mrNumber := lit "7" |}.
Proof. reflexivity. Qed.

Example parseMRUrl_bitbucket_scenario :
  parseMRUrl (lit "https://bitbucket.org/x/y/pull/1") = None.
Proof. reflexivity. Qed.

Example parseMRUrl_no_digits :
  parseMRUrl (lit "https://github.com/acme/widgets/pull/abc") = None.
Proof. reflexivity. Qed.

Example parseMRUrl_missing_segment :
  parseMRUrl (lit "https://github.com/acme/pull/1") = None.
Proof. reflexivity. Qed.

(** C1, as the specification states it, fails:
    [https://github.com/acme/widgets/pull/42abc] has the malformed number
    segment [42abc], and is resolved to request [42]. *)
Lemma parseMRUrl_accepts_malformed_number : ~ malformed_number_rejected.
Proof.
  intros H.
  specialize (H github (lit "acme") (lit "widgets") (lit "42abc")).
  assert (Hseg : forall s, forallb (fun c => negb (c =? slash)%N) s = true ->
                           s <> [] -> segment s).
  { intros s Hs Hne. split; [exact Hne|].
    apply Forall_forall. intros c Hc Heq.
    rewrite forallb_forall in Hs. specialize (Hs c Hc).
    rewrite Heq in Hs. discriminate Hs. }
  assert (Hurl : parseMRUrl
            (lit "https://" ++ host_of github ++ lit "acme" ++ [slash]
               ++ lit "widgets" ++ infix_of github ++ lit "42abc")
          = Some {| platform := github; owner := lit "acme";
                    repo := lit "widgets"; mrNumber := lit "42" |})
    by reflexivity.
  rewrite H in Hurl; try discriminate Hurl;
    try (apply Hseg; [reflexivity | discriminate]).
  intros [_ Hd]. rewrite Forall_forall in Hd.
  specialize (Hd 97%N). simpl in Hd.
  assert (Ha : is_digit 97%N = true) by (apply Hd; tauto). discriminate Ha.
Qed.

End CodeDiffFacts.

(** * Facts about the fetch handler *)

Module PageFacts.
Import Regex CodeDiff Viewer.

Section Fetch.
Variable diff2html : OutputFormat -> jsstring -> option jsstring.
Variable net : Network.

Lemma parsed_url_not_empty ui r :
  parseMRUrl (mrUrl ui) = Some r -> mrUrl ui <> [].
Proof. intros H E. rewrite E in H. discriminate H. Qed.

Lemma failed_guard (a b : bool) : a = false \/ b = false -> negb a || negb b = true.
Proof. intros [-> | ->]; [reflexivity | apply orb_true_r]. Qed.

Lemma succeeded_guard (a b : bool) : a = true /\ b = true -> negb a || negb b = false.
Proof. intros [-> ->]. reflexivity. Qed.

Lemma handleFetchDiff_failed ui r e :
  parseMRUrl (mrUrl ui) = Some r -> fetch_error net r = Some e ->
  handleFetchDiff diff2html net ui
  = (Ok tt, setIsLoading false (toast (failure_toast e) (cleared ui))).
Proof.
  intros Hp Hf. pose proof (parsed_url_not_empty _ Hp) as Hne.
  unfold handleFetchDiff. destruct (mrUrl ui) as [|c u] eqn:Eu; [congruence|].
  rewrite Hp. unfold fetch_error in Hf.
  destruct (platform r);
    unfold bind, try_catch_finally, set_state;
    [unfold fetchGitHubPR | unfold fetchGitLabMR].
  - destruct (ok (github_pull net (owner r) (repo r) (mrNumber r))),
      (ok (github_pull_files net (owner r) (repo r) (mrNumber r)));
      cbn [andb negb orb] in *; try discriminate Hf;
      inversion Hf; reflexivity.
  - destruct (encodeURIComponent (owner r ++ [slash] ++ repo r));
      [|inversion Hf; reflexivity].
    destruct (ok (gitlab_merge_request net (owner r) (repo r) (mrNumber r))),
      (ok (gitlab_changes net (owner r) (repo r) (mrNumber r)));
      cbn [andb negb orb] in *; try discriminate Hf;
      inversion Hf; reflexivity.
Qed.

Lemma generateDiffHtml_returns p f ui :
  fst (generateDiffHtml diff2html p f ui) = Ok tt.
Proof. unfold generateDiffHtml. destruct (diff2html _ _); reflexivity. Qed.

Lemma selectFirst_returns files ui :
  fst (selectFirst diff2html files ui) = Ok tt.
Proof.
  destruct files as [|f0 fs]; [reflexivity|]. simpl.
  destruct (patch f0) as [[|c p]|]; try reflexivity.
  unfold bind, set_state. apply generateDiffHtml_returns.
Qed.

Lemma handleFetchDiff_succeeded ui r :
  parseMRUrl (mrUrl ui) = Some r -> fetch_error net r = None ->
  handleFetchDiff diff2html net ui
  = (Ok tt,
     setIsLoading false
       (toast (success_toast ui)
          (snd (selectFirst diff2html (fetched_files net r)
                  (setFilesChanged (fetched_files net r)
                     (setMrAuthor (fetched_author net r)
                        (setMrTitle (fetched_title net r) (cleared ui)))))))).
Proof.
  intros Hp Hs. pose proof (parsed_url_not_empty _ Hp) as Hne.
  unfold handleFetchDiff. destruct (mrUrl ui) as [|c u] eqn:Eu; [congruence|].
  rewrite Hp. unfold fetch_error, fetched_files, fetched_author,
    fetched_title, cleared in *.
  destruct (platform r);
    unfold bind at 1 2 3 4, try_catch_finally, set_state at 1 2 3 4;
    [unfold fetchGitHubPR | unfold fetchGitLabMR].
  - destruct (ok (github_pull net (owner r) (repo r) (mrNumber r))),
      (ok (github_pull_files net (owner r) (repo r) (mrNumber r)));
      cbn [andb negb orb] in *; try discriminate Hs.
    unfold bind, set_state.
    match goal with
    | |- context [selectFirst ?d ?fs ?u] =>
        pose proof (selectFirst_returns fs u) as Hr;
        destruct (selectFirst d fs u) as [res u']
    end. simpl in Hr; subst res; reflexivity.
  - destruct (encodeURIComponent (owner r ++ [slash] ++ repo r));
      [|discriminate Hs].
    destruct (ok (gitlab_merge_request net (owner r) (repo r) (mrNumber r))),
      (ok (gitlab_changes net (owner r) (repo r) (mrNumber r)));
      cbn [andb negb orb] in *; try discriminate Hs.
    unfold bind, set_state.
    match goal with
    | |- context [selectFirst ?d ?fs ?u] =>
        pose proof (selectFirst_returns fs u) as Hr;
        destruct (selectFirst d fs u) as [res u']
    end. simpl in Hr; subst res; reflexivity.
Qed.




End Fetch.




(** A GitLab URL whose owner is a lone surrogate is recognized, and the fetch
    fails on encoding the project path, although the platform would answer
    every request. *)
Lemma unencodable_project_path_fails_fetch :
  let out := handleFetchDiff no_render (sample_net true [] None)
               (sample_ui lone_surrogate_url) in
  parseMRUrl lone_surrogate_url
  = Some {| platform := gitlab; owner := [0xDC00%N]; repo := lit "widgets";
            mrNumber := lit "7" |} /\
  filesChanged (snd out) = [] /\
  toasts (snd out)
  = [ {| toast_title := lit "Failed to fetch diff";
         toast_description := lit "URI malformed";
         toast_destructive := true |} ].
Proof. vm_compute. repeat split. Qed.




(** C4, as the specification states it, fails: a change flagged both new and
    renamed is classified [added]. *)
Lemma new_and_renamed_is_added : ~ inconsistent_flags_give_modified.
Proof.
  intros H.
  specialize (H {| new_file := true; deleted_file := false; renamed_file := true;
                   diff := None; new_path := lit "b.ts"; old_path := lit "a.ts" |}
                eq_refl).
  discriminate H.
Qed.

(** C4, as amended: the status is [added] when the change is flagged new,
    else [removed] when flagged deleted, else [renamed] when flagged renamed,
    and [modified] exactly when no flag is set; with several flags set the
    first of new, deleted, renamed decides. *)
Theorem gitlab_status_by_priority (c : GitLabChange) :
  let st := status (gitlabFileChange c) in
  (new_file c = true -> st = added) /\
  (new_file c = false -> deleted_file c = true -> st = removed) /\
  (new_file c = false -> deleted_file c = false -> renamed_file c = true ->
     st = renamed) /\
  (st = modified <->
     new_file c = false /\ deleted_file c = false /\ renamed_file c = false).
Proof.
  simpl. unfold gitlabStatus.
  destruct (new_file c), (deleted_file c), (renamed_file c);
    repeat split; intros; try discriminate; try reflexivity;
    repeat match goal with H : _ /\ _ |- _ => destruct H end; discriminate.
Qed.

(** ** Counting added and removed lines *)

Lemma match_here_line c prev s :
  match_here [ABol; ALit [c]; AClass (CNot c)] [] prev s
  = if at_line_start prev then
      match s with
      | x :: y :: rest =>
          if (x =? c)%N && negb (y =? c)%N then Some ([], rest) else None
      | _ => None
      end
    else None.
Proof.
  simpl. destruct (at_line_start prev); [|reflexivity].
  destruct s as [|x [|y rest]]; [reflexivity| |].
  - destruct (x =? c)%N; reflexivity.
  - destruct (x =? c)%N; [|reflexivity]. simpl.
    destruct (y =? c)%N; reflexivity.
Qed.

Lemma terminator_differs c x :
  is_line_terminator c = false -> is_line_terminator x = true -> (x =? c)%N = false.
Proof.
  intros Hc Hx. destruct (N.eqb_spec x c) as [->|]; [congruence | reflexivity].
Qed.

(** The matches of the pattern are the positions [scan] counts. *)
Lemma match_all_scan c :
  is_line_terminator c = false ->
  forall n s prev, List.length s <= n ->
    List.length (match_all_from [ABol; ALit [c]; AClass (CNot c)] prev s 0)
    = scan c (at_line_start prev) s.
Proof.
  intros Hc. induction n as [|n IH]; intros s prev Hn.
  - destruct s; [|simpl in Hn; lia]. cbn [match_all_from].
    rewrite match_here_line. destruct (at_line_start prev); reflexivity.
  - destruct s as [|x t].
    { cbn [match_all_from]. rewrite match_here_line.
      destruct (at_line_start prev); reflexivity. }
    cbn [match_all_from]. rewrite match_here_line.
    simpl in Hn. cbn [scan].
    destruct (at_line_start prev) eqn:Hb; cbn [andb].
    + destruct t as [|y rest].
      * rewrite andb_false_r. cbn [match_all_from List.length].
        rewrite match_here_line. cbn [scan].
        destruct (at_line_start (Some x)); reflexivity.
      * cbn [next_differs]. destruct ((x =? c)%N && negb (y =? c)%N) eqn:Hm.
        -- replace (List.length (x :: y :: rest) - List.length rest) with 2
             by (cbn [List.length]; lia).
           cbn [Nat.sub match_all_from List.length].
           rewrite IH by (simpl in Hn; lia).
           apply andb_prop in Hm as [Hx _]. apply N.eqb_eq in Hx. subst x.
           cbn [scan at_line_start]. rewrite Hc. cbn [andb]. reflexivity.
        -- rewrite IH by (simpl in *; lia). reflexivity.
    + rewrite IH by lia. reflexivity.
Qed.

Lemma count_matches_scan c text :
  is_line_terminator c = false ->
  count_matches [ABol; ALit [c]; AClass (CNot c)] (Some text) = scan c true text.
Proof.
  intros Hc. unfold count_matches, match_g.
  change (scan c true text) with (scan c (at_line_start None) text).
  rewrite <- (@match_all_scan c Hc (List.length text) text None (le_n _)).
  destruct (match_all_from _ None text 0); reflexivity.
Qed.

Lemma split_lines_head t :
  exists l ls, split_lines t = l :: ls /\
    match t with
    | [] => l = [] /\ ls = []
    | y :: _ =>
        if is_line_terminator y then l = [] /\ ls <> []
        else exists l', l = y :: l'
    end.
Proof.
  induction t as [|y t (l & ls & E & _)]; simpl.
  - exists [], []. repeat split.
  - destruct (is_line_terminator y).
    + exists [], (split_lines t). rewrite E. repeat split. discriminate.
    + rewrite E. exists (y :: l), ls. split; [reflexivity|]. now exists l.
Qed.

Lemma scan_lines c :
  is_line_terminator c = false ->
  forall s bol,
    scan c bol s + bare c bol (split_lines s) = lead c bol (split_lines s).
Proof.
  intros Hc. induction s as [|x t IH]; intros bol.
  - destruct bol; reflexivity.
  - cbn [scan split_lines].
    destruct (split_lines_head t) as (l & ls & E & Hhd).
    destruct (is_line_terminator x) eqn:Hx.
    + rewrite (@terminator_differs c x Hc Hx), andb_false_r. cbn [andb Nat.add].
      specialize (IH true). rewrite E in *. unfold lead, bare in *.
      cbn [hd tl filter single_prefix orb andb last] in *.
      rewrite andb_false_r, orb_true_r. cbn [andb Nat.add].
      destruct (single_prefix c l); cbn [List.length] in *; lia.
    + rewrite E. specialize (IH false). rewrite E in IH.
      unfold lead, bare in *. cbn [hd tl andb orb Nat.add] in *.
      rewrite <- IH. clear IH.
      assert (Hhit : (x =? c)%N && next_differs c t
                     = single_prefix c (x :: l)
                       && negb (match ls with [] => jseqb (x :: l) [c] | _ => false end)).
      { cbn [single_prefix jseqb].
        destruct (x =? c)%N; [|reflexivity]. cbn [andb].
        destruct t as [|y t'].
        - destruct Hhd as [-> ->]. reflexivity.
        - cbn [next_differs]. destruct (is_line_terminator y) eqn:Hy.
          + destruct Hhd as [-> Hls]. rewrite (@terminator_differs c y Hc Hy).
            destruct ls; [congruence | reflexivity].
          + destruct Hhd as [l' ->]. destruct (y =? c)%N; destruct ls; reflexivity. }
      fold (next_differs c t). rewrite <- andb_assoc, Hhit.
      destruct ls as [|l2 ls'].
      * cbn [last orb]. rewrite orb_false_r.
        destruct bol; cbn [andb]; [|reflexivity].
        destruct (single_prefix c (x :: l)) eqn:Hsp; cbn [andb negb].
        -- destruct (jseqb (x :: l) [c]); simpl; lia.
        -- assert (Hj : jseqb (x :: l) [c] = false).
           { cbn [single_prefix jseqb] in *. destruct (x =? c)%N; [|reflexivity].
             destruct l; [discriminate Hsp | reflexivity]. }
           rewrite Hj. simpl. lia.
      * cbn [negb]. rewrite andb_true_r, orb_true_r. cbn [andb last].
        destruct (bol && single_prefix c (x :: l)); lia.
Qed.

Lemma count_single_prefix_lead c text :
  count_single_prefix c text = lead c true (split_lines text).
Proof.
  unfold count_single_prefix, lead.
  destruct (split_lines_head text) as (l & ls & E & _). rewrite E.
  cbn [hd tl filter andb]. destruct (single_prefix c l); reflexivity.
Qed.

Lemma ends_with_bare_bare c text :
  (if ends_with_bare c text then 1 else 0) = bare c true (split_lines text).
Proof. reflexivity. Qed.

Lemma count_matches_lines c text :
  is_line_terminator c = false ->
  count_matches [ABol; ALit [c]; AClass (CNot c)] (Some text)
    + (if ends_with_bare c text then 1 else 0)
  = count_single_prefix c text.
Proof.
  intros Hc. rewrite (@count_matches_scan c text Hc), ends_with_bare_bare,
    count_single_prefix_lead. now apply scan_lines.
Qed.

Lemma plus_not_terminator : is_line_terminator plus_sign = false.
Proof. reflexivity. Qed.

Lemma minus_not_terminator : is_line_terminator minus_sign = false.
Proof. reflexivity. Qed.

(** C5, as the specification states it, fails: for the diff text [+] (an
    added empty line with nothing after it) there is one line beginning with
    a single [+] and the adapter counts no addition. *)
Lemma bare_last_line_not_counted : ~ counts_single_prefix_lines.
Proof.
  intros H.
  destruct (H (change_with_diff (Some [plus_sign])) [plus_sign] eq_refl) as [Ha _].
  discriminate Ha.
Qed.

(** C5, as amended: for a change with a diff text, [additions] is the number
    of lines (cut at the line terminators LF, CR, LS, PS) that begin with a
    single [+], except that a last line made of [+] alone, with no code unit
    after it, is not counted; [deletions] likewise with [-]. *)
Theorem gitlab_counts_prefixed_lines (change : GitLabChange) (text : jsstring) :
  diff change = Some text ->
  (additions (gitlabFileChange change)
     + (if ends_with_bare plus_sign text then 1 else 0)
   = Z.of_nat (count_single_prefix plus_sign text))%Z /\
  (deletions (gitlabFileChange change)
     + (if ends_with_bare minus_sign text then 1 else 0)
   = Z.of_nat (count_single_prefix minus_sign text))%Z.
Proof.
  intros Hd. cbn [gitlabFileChange additions deletions]. rewrite Hd.
  unfold additionsRe, deletionsRe.
  rewrite <- (@count_matches_lines plus_sign text plus_not_terminator).
  rewrite <- (@count_matches_lines minus_sign text minus_not_terminator).
  split.
  - destruct (ends_with_bare plus_sign text); lia.
  - destruct (ends_with_bare minus_sign text); lia.
Qed.

(** The scenario of the specification: one addition, one deletion. *)
Lemma gitlab_counts_prefixed_lines_witness :
  additions (gitlabFileChange (change_with_diff (Some scenario_diff))) = 1%Z /\
  deletions (gitlabFileChange (change_with_diff (Some scenario_diff))) = 1%Z.
Proof.
  destruct (@gitlab_counts_prefixed_lines
              (change_with_diff (Some scenario_diff)) scenario_diff eq_refl)
    as [Ha Hd].
  change (ends_with_bare plus_sign scenario_diff) with false in Ha.
  change (ends_with_bare minus_sign scenario_diff) with false in Hd.
  change (count_single_prefix plus_sign scenario_diff) with 1 in Ha.
  change (count_single_prefix minus_sign scenario_diff) with 1 in Hd.
  split; lia.
Defined.



End PageFacts.


(** * Facts about the Telegram message *)

Module TelegramFacts.
Import Telegram.

(** ** [escapeHtml] *)

Lemma replace_all_app c b s1 s2 :
  replace_all c b (s1 ++ s2) = replace_all c b s1 ++ replace_all c b s2.
Proof. unfold replace_all. apply flat_map_app. Qed.

Lemma escapeHtml_app s1 s2 : escapeHtml (s1 ++ s2) = escapeHtml s1 ++ escapeHtml s2.
Proof. unfold escapeHtml. now rewrite !replace_all_app. Qed.

Lemma escapeHtml_cons c s : escapeHtml (c :: s) = escapeHtml [c] ++ escapeHtml s.
Proof. exact (escapeHtml_app [c] s). Qed.

Lemma escapeHtml_unit c : escaped_unit c (escapeHtml [c]).
Proof.
  unfold escapeHtml, replace_all. cbn [flat_map app].
  destruct (N.eqb_spec c amp) as [->|Ha]; [now apply esc_amp|].
  cbn [flat_map app].
  destruct (N.eqb_spec c lt_sign) as [->|Hl]; [now apply esc_lt|].
  cbn [flat_map app].
  destruct (N.eqb_spec c gt_sign) as [->|Hg]; [now apply esc_gt|].
  cbn [flat_map app].
  destruct (N.eqb_spec c dquote) as [->|Hq]; [now apply esc_quot|].
  now apply esc_same.
Qed.

Lemma markup_app a b :
  filter is_markup (a ++ b) = filter is_markup a ++ filter is_markup b.
Proof. apply filter_app. Qed.

Lemma is_markup_false c :
  c <> lt_sign -> c <> gt_sign -> c <> dquote -> is_markup c = false.
Proof.
  intros Hl Hg Hq. unfold is_markup.
  destruct (N.eqb_spec c lt_sign), (N.eqb_spec c gt_sign), (N.eqb_spec c dquote);
    try contradiction; reflexivity.
Qed.

Lemma markup_escapeHtml s : filter is_markup (escapeHtml s) = [].
Proof.
  induction s as [|c s IH]; [reflexivity|].
  rewrite escapeHtml_cons, markup_app, IH, app_nil_r.
  destruct (escapeHtml_unit c); try reflexivity.
  cbn [filter]. now rewrite is_markup_false.
Qed.

Lemma filter_nil_In (f : jschar -> bool) s c :
  filter f s = [] -> In c s -> f c = false.
Proof.
  intros Hf Hin. destruct (f c) eqn:E; [|reflexivity].
  assert (In c (filter f s)) by (apply filter_In; auto).
  rewrite Hf in H. contradiction.
Qed.

(** ** Entities *)

Lemma entities_only_app a b :
  entities_only a -> entities_only b -> entities_only (a ++ b).
Proof.
  intros Ha Hb pre post H.
  apply app_eq_app in H as [l [[H1 H2] | [H1 H2]]].
  - destruct l as [|x l].
    + simpl in H2. apply (Hb [] post). now rewrite <- H2.
    + simpl in H2. inversion H2; subst x post.
      destruct (Ha pre l H1) as (e & post' & He & ->).
      exists e, (post' ++ b). split; [exact He | now rewrite app_assoc].
  - exact (Hb l post H2).
Qed.

Lemma entities_only_nil : entities_only [].
Proof. intros [|x pre] post H; discriminate H. Qed.

(** A text without [&] has nothing to check. *)
Lemma entities_only_no_amp s :
  forallb (fun c => negb (c =? amp)%N) s = true -> entities_only s.
Proof.
  intros Hs pre post H. exfalso.
  rewrite forallb_forall in Hs.
  assert (Hin : In amp s) by (rewrite H; apply in_elt).
  specialize (Hs amp Hin). rewrite N.eqb_refl in Hs. discriminate Hs.
Qed.

Lemma entities_only_entity e :
  In e entity_bodies -> entities_only (amp :: e).
Proof.
  intros He pre post H. destruct pre as [|x pre].
  - inversion H; subst post. exists e, []. now rewrite app_nil_r.
  - exfalso. inversion H; subst x.
    assert (Hin : In amp e) by (rewrite H2; apply in_elt).
    simpl in He.
    repeat (destruct He as [<- | He];
            [simpl in Hin;
             repeat (destruct Hin as [Hin | Hin]; [discriminate Hin|]);
             exact Hin|]).
    exact He.
Qed.

Lemma entities_only_escapeHtml s : entities_only (escapeHtml s).
Proof.
  induction s as [|c s IH]; [apply entities_only_nil|].
  rewrite escapeHtml_cons. apply entities_only_app; [|exact IH].
  destruct (escapeHtml_unit c).
  - apply (@entities_only_entity (lit "amp;")). simpl; tauto.
  - apply (@entities_only_entity (lit "lt;")). simpl; tauto.
  - apply (@entities_only_entity (lit "gt;")). simpl; tauto.
  - apply (@entities_only_entity (lit "quot;")). simpl; tauto.
  - apply entities_only_no_amp. cbn [forallb].
    destruct (N.eqb_spec c amp); [contradiction | reflexivity].
Qed.

(** ** Numbers in the template *)

Lemma string_of_uint_numeric d :
  Forall numeric (lit (NilEmpty.string_of_uint d)).
Proof.
  unfold lit.
  induction d; cbn [NilEmpty.string_of_uint list_ascii_of_string List.map];
    constructor; try assumption; left; reflexivity.
Qed.

Lemma show_Z_numeric z : Forall numeric (show_Z z).
Proof.
  unfold show_Z.
  assert (Hu : forall d, Forall numeric (lit (NilZero.string_of_uint d))).
  { intros d. destruct d; try apply string_of_uint_numeric.
    repeat constructor. }
  destruct (Z.to_int z) as [d|d]; cbn [NilZero.string_of_int].
  - apply Hu.
  - unfold lit. cbn [list_ascii_of_string List.map]. constructor.
    + right; reflexivity.
    + apply Hu.
Qed.

Lemma numeric_not_special c :
  numeric c -> is_markup c = false /\ (c =? amp)%N = false.
Proof.
  intros [Hd | ->]; [|split; reflexivity].
  unfold is_digit in Hd. apply andb_prop in Hd as [H1 H2].
  apply N.leb_le in H1, H2.
  split.
  - apply is_markup_false; unfold lt_sign, gt_sign, dquote; lia.
  - apply N.eqb_neq. unfold amp. lia.
Qed.

Lemma markup_show_Z z : filter is_markup (show_Z z) = [].
Proof.
  pose proof (show_Z_numeric z) as H.
  induction H as [|c s Hc _ IH]; [reflexivity|].
  cbn [filter]. now rewrite (proj1 (numeric_not_special Hc)).
Qed.

Lemma entities_only_show_Z z : entities_only (show_Z z).
Proof.
  apply entities_only_no_amp.
  pose proof (show_Z_numeric z) as H.
  induction H as [|c s Hc _ IH]; [reflexivity|].
  cbn [forallb]. now rewrite (proj2 (numeric_not_special Hc)).
Qed.

(** ** The shape of the message *)

Lemma forEach_entries : forall (l : list ReviewIssue) (k : nat) (acc : jsstring),
  forEach_from
    (fun message issue index =>
       let emoji := getSeverityEmoji (severityName (severity issue)) in
       let message :=
         message ++ show_nat (index + 1) ++ lit ". " ++ emoji
           ++ lit " <code>" ++ escapeHtml (file issue) ++ lit ":"
           ++ show_Z (line issue) ++ lit "</code>" ++ [newline] in
       message ++ lit "   " ++ escapeHtml (shortMessage issue) ++ [newline])
    l k acc
  = acc ++ issue_entries (k + 1) l.
Proof.
  induction l as [|issue l IH]; intros k acc; cbn [forEach_from issue_entries].
  - now rewrite app_nil_r.
  - rewrite IH. cbv zeta. unfold issue_entry, issue_location, issue_text.
    replace (Datatypes.S k + 1) with (Datatypes.S (k + 1)) by lia.
    repeat rewrite <- app_assoc. reflexivity.
Qed.

Lemma buildTelegramMessage_shape data :
  buildTelegramMessage data
  = getStatusEmoji (statusName (status data)) ++ message_header data
    ++ (if 0 <? List.length (issues data) then
          issue_counts data ++ issue_entries 1 (firstn 5 (issues data))
          ++ (if 5 <? List.length (issues data)
              then more_issues_line (List.length (issues data) - 5)
              else [])
        else [])
    ++ message_footer data.
Proof.
  unfold buildTelegramMessage. cbv zeta.
  destruct (0 <? List.length (issues data)).
  - rewrite forEach_entries. change (0 + 1) with 1.
    destruct (5 <? List.length (issues data));
      unfold message_header, issue_counts, more_issues_line, message_footer;
      repeat rewrite <- app_assoc; rewrite ?app_nil_r; reflexivity.
  - unfold message_header, message_footer.
    repeat rewrite <- app_assoc. reflexivity.
Qed.

Lemma count_by_severity sv l :
  List.length (filter (severity_is sv) l)
  = List.length
      (filter (fun x => jseqb (severityName x) (severityName sv))
         (List.map severity l)).
Proof.
  induction l as [|i l IH]; [reflexivity|].
  cbn [filter List.map]. unfold severity_is at 1.
  destruct (jseqb (severityName (severity i)) (severityName sv));
    cbn [List.length]; now rewrite IH.
Qed.

Lemma issue_counts_by_severity data l1 l2 :
  List.map severity l1 = List.map severity l2 ->
  issue_counts (with_issues data l1) = issue_counts (with_issues data l2).
Proof.
  intros H. unfold issue_counts. cbn [issues with_issues].
  now rewrite !(count_by_severity _ l1), !(count_by_severity _ l2), H.
Qed.

(** C6: the message opens with the emoji of the status (a different one for
    each status), then carries the entries of the first five issues and no
    other, numbered from 1, and, when there are more than five issues, the
    line with the count of the remaining ones; issues after the fifth matter
    to the message only through their number and severities. *)
Theorem buildTelegramMessage_status_and_top_issues
    (data : TelegramNotificationRequest) :
  let n := List.length (issues data) in
  getStatusEmoji (statusName (status data))
    = match status data with
      | passed => check_mark
      | warnings => warning_sign
      | failed => cross_mark
      end /\
  (forall s1 s2,
      getStatusEmoji (statusName s1) = getStatusEmoji (statusName s2) -> s1 = s2) /\
  buildTelegramMessage data
    = getStatusEmoji (statusName (status data)) ++ message_header data
      ++ (if 0 <? n then
            issue_counts data ++ issue_entries 1 (firstn 5 (issues data))
            ++ (if 5 <? n then more_issues_line (n - 5) else [])
          else [])
      ++ message_footer data /\
  List.length (firstn 5 (issues data)) = Nat.min 5 n /\
  (forall top extra1 extra2,
      List.length top = 5 ->
      List.map severity extra1 = List.map severity extra2 ->
      buildTelegramMessage (with_issues data (top ++ extra1))
      = buildTelegramMessage (with_issues data (top ++ extra2))).
Proof.
  intros n. split; [|split; [|split; [|split]]].
  - destruct (status data); reflexivity.
  - intros [] []; intros H; try reflexivity; discriminate H.
  - apply buildTelegramMessage_shape.
  - apply length_firstn.
  - intros top extra1 extra2 Ht He.
    rewrite !buildTelegramMessage_shape.
    rewrite (@issue_counts_by_severity data (top ++ extra1) (top ++ extra2))
      by (now rewrite !map_app, He).
    cbn [issues with_issues].
    assert (Hf : forall e, firstn 5 (top ++ e) = top).
    { intros e. rewrite <- Ht. rewrite firstn_app, firstn_all, Nat.sub_diag.
      cbn [firstn]. apply app_nil_r. }
    rewrite !Hf.
    assert (Hl : List.length (top ++ extra1) = List.length (top ++ extra2)).
    { rewrite !length_app. f_equal.
      now rewrite <- (length_map severity extra1), He, length_map. }
    rewrite Hl. reflexivity.
Qed.

Lemma issue_entries_nth : forall (l : list ReviewIssue) k i issue,
  nth_error l i = Some issue ->
  issue_entries k l
  = issue_entries k (firstn i l) ++ issue_entry (k + i) issue
    ++ issue_entries (k + i + 1) (skipn (Datatypes.S i) l).
Proof.
  induction l as [|x l IH]; intros k i issue H.
  - destruct i; discriminate H.
  - destruct i as [|i]; cbn [nth_error] in H.
    + inversion H; subst x. cbn [firstn skipn issue_entries app].
      replace (k + 0) with k by lia. replace (k + 1) with (Datatypes.S k) by lia.
      reflexivity.
    + cbn [firstn skipn issue_entries]. rewrite (IH (Datatypes.S k) i issue H).
      replace (Datatypes.S k + i) with (k + Datatypes.S i) by lia.
      now rewrite <- app_assoc.
Qed.

Lemma nth_error_parts (l : list ReviewIssue) i issue :
  nth_error l i = Some issue ->
  l = firstn i l ++ issue :: skipn (Datatypes.S i) l.
Proof.
  revert i. induction l as [|x l IH]; intros i H.
  - destruct i; discriminate H.
  - destruct i as [|i]; cbn [nth_error] in H.
    + inversion H. reflexivity.
    + cbn [firstn skipn app]. f_equal. exact (IH i H).
Qed.

Lemma with_own_issues data : with_issues data (issues data) = data.
Proof. destruct data; reflexivity. Qed.

(** Issues with the same file, line, severity and shortened message give the
    same entries. *)
Lemma issue_entries_same l1 l2 :
  Forall2 (fun a b => file a = file b /\ line a = line b /\
                      severity a = severity b /\
                      shortMessage a = shortMessage b) l1 l2 ->
  forall k n,
    issue_entries k (firstn n l1) = issue_entries k (firstn n l2).
Proof.
  induction 1 as [|a b l1 l2 (Hf & Hl & Hs & Hm) _ IH]; intros k n.
  - reflexivity.
  - destruct n as [|n]; [reflexivity|]. cbn [firstn issue_entries].
    rewrite (IH (Datatypes.S k) n). f_equal.
    unfold issue_entry, issue_location, issue_text.
    now rewrite Hf, Hl, Hs, Hm.
Qed.

Lemma buildTelegramMessage_same_entries data l1 l2 :
  Forall2 (fun a b => file a = file b /\ line a = line b /\
                      severity a = severity b /\
                      shortMessage a = shortMessage b) l1 l2 ->
  buildTelegramMessage (with_issues data l1)
  = buildTelegramMessage (with_issues data l2).
Proof.
  intros H. rewrite !buildTelegramMessage_shape.
  assert (Hsev : List.map severity l1 = List.map severity l2).
  { induction H as [|a b l1 l2 (_ & _ & Hs & _) _ IH]; [reflexivity|].
    cbn [List.map]. now rewrite Hs, IH. }
  rewrite (@issue_counts_by_severity data l1 l2 Hsev).
  cbn [issues with_issues].
  rewrite (issue_entries_same H 1 5).
  now rewrite (Forall2_length H).
Qed.

(** C9, as amended: the entry of each of the first five issues is its
    location line followed by three spaces, the escaped message and a line
    end, where the message is cut to its first 80 UTF-16 code units and
    followed by [...] when it is longer than 80 code units, and is whole
    otherwise.  What a message holds after its first 80 code units has no
    influence on the rendered message beyond making it longer than 80. *)
Theorem issue_message_truncated_to_80
    (data : TelegramNotificationRequest) (i : nat) (issue : ReviewIssue) :
  nth_error (issues data) i = Some issue -> i < 5 ->
  buildTelegramMessage data
  = (getStatusEmoji (statusName (status data)) ++ message_header data
     ++ issue_counts data
     ++ issue_entries 1 (firstn i (issues data))
     ++ issue_location (i + 1) issue)
    ++ lit "   "
    ++ escapeHtml
         (if 80 <? List.length (message issue)
          then firstn 80 (message issue) ++ lit "..."
          else message issue)
    ++ [newline]
    ++ (issue_entries (i + 2)
          (skipn (Datatypes.S i) (firstn 5 (issues data)))
        ++ (if 5 <? List.length (issues data)
            then more_issues_line (List.length (issues data) - 5)
            else [])
        ++ message_footer data) /\
  (forall issue',
      file issue' = file issue -> line issue' = line issue ->
      severity issue' = severity issue ->
      firstn 80 (message issue') = firstn 80 (message issue) ->
      (80 < List.length (message issue') <-> 80 < List.length (message issue)) ->
      buildTelegramMessage
        (with_issues data
           (firstn i (issues data) ++ issue'
              :: skipn (Datatypes.S i) (issues data)))
      = buildTelegramMessage data) /\
  (List.length (message issue) <= 80 -> shortMessage issue = message issue) /\
  (80 < List.length (message issue) ->
     shortMessage issue = firstn 80 (message issue) ++ lit "..." /\
     List.length (shortMessage issue) = 83).
Proof.
  intros Hnth Hi. split; [|split; [|split]].
  - rewrite buildTelegramMessage_shape.
    assert (Hn : (0 <? List.length (issues data)) = true).
    { apply Nat.ltb_lt. destruct (issues data); [destruct i; discriminate Hnth|].
      simpl; lia. }
    rewrite Hn.
    assert (Hnth5 : nth_error (firstn 5 (issues data)) i = Some issue)
      by (rewrite nth_error_firstn; apply Nat.ltb_lt in Hi; now rewrite Hi).
    rewrite (issue_entries_nth _ 1 _ Hnth5).
    rewrite firstn_firstn. replace (Nat.min i 5) with i by lia.
    replace (1 + i + 1) with (i + 2) by lia.
    replace (1 + i) with (i + 1) by lia.
    unfold issue_entry, issue_text, shortMessage.
    repeat rewrite <- app_assoc. reflexivity.
  - intros issue' Hf Hl Hs Hm Hlen.
    pose proof (nth_error_parts _ _ Hnth) as Hparts.
    set (l1 := firstn i (issues data)) in *.
    set (l2 := skipn (Datatypes.S i) (issues data)) in *.
    transitivity (buildTelegramMessage (with_issues data (issues data)));
      [|now rewrite with_own_issues].
    rewrite Hparts.
    apply buildTelegramMessage_same_entries.
    assert (Hrefl : forall l : list ReviewIssue,
               Forall2 (fun a b => file a = file b /\ line a = line b /\
                                   severity a = severity b /\
                                   shortMessage a = shortMessage b) l l).
    { induction l; constructor; auto. }
    apply Forall2_app; [apply Hrefl|]. constructor; [|apply Hrefl].
    repeat split; try assumption.
    unfold shortMessage.
    destruct (Nat.ltb_spec 80 (List.length (message issue'))) as [H1 | H1];
      destruct (Nat.ltb_spec 80 (List.length (message issue))) as [H2 | H2].
    + now rewrite Hm.
    + apply Hlen in H1. lia.
    + apply Hlen in H2. lia.
    + rewrite <- (firstn_all2 (n := 80) (message issue')) by exact H1.
      rewrite <- (firstn_all2 (n := 80) (message issue)) by exact H2.
      exact Hm.
  - intros H. unfold shortMessage.
    destruct (Nat.ltb_spec 80 (List.length (message issue))); [lia | reflexivity].
  - intros H. unfold shortMessage.
    destruct (Nat.ltb_spec 80 (List.length (message issue))); [|lia].
    split; [reflexivity|].
    rewrite length_app, length_firstn. cbn [lit list_ascii_of_string List.map List.length]. lia.
Qed.

(** C9, as the specification states it, fails: a message of 79 letters and
    one character outside the basic plane has 80 characters and 81 code
    units; it is cut after its 80th code unit, in the middle of the last
    character, and does not appear in full. *)
Lemma message_of_80_characters_is_cut : ~ short_messages_appear_in_full.
Proof.
  intros H.
  specialize (H (sample_payload [sample_issue eighty_characters]) 0
                (sample_issue eighty_characters) eq_refl).
  assert (H5 : 0 < 5) by lia. specialize (H H5).
  assert (H80 : characters (message (sample_issue eighty_characters)) <= 80).
  { apply Nat.leb_le. vm_compute. reflexivity. }
  specialize (H H80). vm_compute in H. discriminate H.
Qed.

(** ** No markup and no stray [&] from the payload's text *)

Lemma markup_header data :
  filter is_markup (message_header data)
  = filter is_markup (message_header (blank_text data)).
Proof.
  unfold message_header. cbn [blank_text mrTitle author reviewTime status
    filesChanged linesAdded linesRemoved].
  repeat rewrite markup_app. rewrite !markup_escapeHtml. reflexivity.
Qed.

Lemma markup_footer data :
  filter is_markup (message_footer data)
  = filter is_markup (message_footer (blank_text data)).
Proof.
  unfold message_footer. cbn [blank_text summary mrUrl].
  repeat rewrite markup_app. rewrite !markup_escapeHtml. reflexivity.
Qed.

Lemma markup_entries : forall l k,
  filter is_markup (issue_entries k l)
  = filter is_markup (issue_entries k (List.map blank_issue l)).
Proof.
  induction l as [|i l IH]; intros k; [reflexivity|].
  cbn [issue_entries List.map]. rewrite !markup_app, IH. f_equal.
  unfold issue_entry, issue_location, issue_text.
  cbn [blank_issue file line severity].
  repeat rewrite markup_app. rewrite !markup_escapeHtml. reflexivity.
Qed.

Lemma blank_severities l : List.map severity (List.map blank_issue l) = List.map severity l.
Proof. rewrite map_map. apply map_ext. reflexivity. Qed.

Lemma markup_counts data :
  issue_counts (blank_text data) = issue_counts data.
Proof.
  unfold issue_counts. cbn [blank_text issues].
  now rewrite !(count_by_severity _ (List.map blank_issue (issues data))),
    !(count_by_severity _ (issues data)), blank_severities.
Qed.

Lemma markup_message data :
  filter is_markup (buildTelegramMessage data)
  = filter is_markup (buildTelegramMessage (blank_text data)).
Proof.
  rewrite !buildTelegramMessage_shape.
  rewrite !markup_app, <- markup_header, <- markup_footer, markup_counts.
  cbn [blank_text issues status]. rewrite length_map.
  destruct (0 <? List.length (issues data)); [|reflexivity].
  rewrite !markup_app, firstn_map, <- markup_entries. reflexivity.
Qed.

Ltac entities :=
  repeat match goal with
         | |- entities_only (_ ++ _) => apply entities_only_app
         end;
  try solve
    [ apply entities_only_escapeHtml
    | apply entities_only_show_Z
    | apply entities_only_nil
    | apply entities_only_no_amp; reflexivity ].

Lemma entities_only_entries : forall l k, entities_only (issue_entries k l).
Proof.
  induction l as [|i l IH]; intros k; cbn [issue_entries];
    [apply entities_only_nil|].
  apply entities_only_app; [|apply IH].
  unfold issue_entry, issue_location, issue_text, show_nat.
  destruct (severity i); entities.
Qed.

Lemma entities_only_message data : entities_only (buildTelegramMessage data).
Proof.
  rewrite buildTelegramMessage_shape.
  unfold message_header, message_footer, issue_counts, more_issues_line, show_nat.
  destruct (status data);
    destruct (0 <? List.length (issues data));
    destruct (5 <? List.length (issues data));
    entities; apply entities_only_entries.
Qed.

(** The entries as one line pair per numbered issue. *)
Lemma issue_entries_numbered : forall l k n,
  List.length l <= n ->
  issue_entries k l
  = flat_map
      (fun entry =>
         show_nat (fst entry) ++ lit ". "
         ++ getSeverityEmoji (severityName (severity (snd entry)))
         ++ lit " <code>" ++ escapeHtml (file (snd entry)) ++ lit ":"
         ++ show_Z (line (snd entry)) ++ lit "</code>" ++ [newline]
         ++ lit "   "
         ++ escapeHtml
              (if 80 <? List.length (message (snd entry))
               then firstn 80 (message (snd entry)) ++ lit "..."
               else message (snd entry))
         ++ [newline])
      (combine (seq k n) l).
Proof.
  induction l as [|x l IH]; intros k n Hn.
  - now rewrite combine_nil.
  - destruct n as [|n]; [simpl in Hn; lia|].
    cbn [seq combine flat_map issue_entries fst snd].
    rewrite <- (IH (Datatypes.S k) n) by (simpl in Hn; lia).
    unfold issue_entry, issue_location, issue_text, shortMessage.
    repeat rewrite <- app_assoc. reflexivity.
Qed.

(** C8: whatever the input, the output of [escapeHtml] holds none of [<],
    [>] and the double quote, and each [&] in it begins one of [&amp;],
    [&lt;], [&gt;], [&quot;].  The message is the fixed template with the
    title, author, review time, issue files, issue messages (shortened),
    summary and URL each put in as [escapeHtml] returns it, and these seven
    are the only places where text of the payload enters: emptying those
    fields changes none of the [<], [>] and double quotes of the message,
    and each [&] of the message begins one of the four entities. *)
Theorem escapeHtml_neutralizes_text :
  (forall text,
      (forall c, In c (escapeHtml text) ->
                 c <> lt_sign /\ c <> gt_sign /\ c <> dquote) /\
      entities_only (escapeHtml text)) /\
  (forall data,
      buildTelegramMessage data
      = getStatusEmoji (statusName (status data))
        ++ lit " <b>Code Review Complete</b>" ++ [newline; newline]
        ++ memo ++ lit " <b>MR:</b> " ++ escapeHtml (mrTitle data) ++ [newline]
        ++ bust ++ lit " <b>Author:</b> " ++ escapeHtml (author data) ++ [newline]
        ++ bar_chart ++ lit " <b>Status:</b> "
        ++ capitalize (statusName (status data)) ++ [newline; newline]
        ++ folder ++ lit " <b>Stats:</b>" ++ [newline]
        ++ bullet ++ lit " Files Changed: " ++ show_Z (filesChanged data)
        ++ [newline]
        ++ bullet ++ lit " Lines Added: +" ++ show_Z (linesAdded data)
        ++ [newline]
        ++ bullet ++ lit " Lines Removed: -" ++ show_Z (linesRemoved data)
        ++ [newline]
        ++ bullet ++ lit " Review Time: " ++ escapeHtml (reviewTime data)
        ++ [newline; newline]
        ++ (if 0 <? List.length (issues data) then
              issue_counts data
              ++ flat_map
                   (fun entry =>
                      show_nat (fst entry) ++ lit ". "
                      ++ getSeverityEmoji (severityName (severity (snd entry)))
                      ++ lit " <code>" ++ escapeHtml (file (snd entry))
                      ++ lit ":" ++ show_Z (line (snd entry)) ++ lit "</code>"
                      ++ [newline]
                      ++ lit "   "
                      ++ escapeHtml
                           (if 80 <? List.length (message (snd entry))
                            then firstn 80 (message (snd entry)) ++ lit "..."
                            else message (snd entry))
                      ++ [newline])
                   (combine (seq 1 5) (firstn 5 (issues data)))
              ++ (if 5 <? List.length (issues data)
                  then more_issues_line (List.length (issues data) - 5)
                  else [])
            else [])
        ++ [newline] ++ light_bulb ++ lit " <b>Summary:</b>" ++ [newline]
        ++ escapeHtml (summary data) ++ [newline; newline]
        ++ link ++ lit " <a href=" ++ [dquote] ++ escapeHtml (mrUrl data)
        ++ [dquote] ++ lit ">View Merge Request</a>" /\
      filter is_markup (buildTelegramMessage data)
      = filter is_markup (buildTelegramMessage (blank_text data)) /\
      entities_only (buildTelegramMessage data)).
Proof.
  split.
  - intros text. split; [|apply entities_only_escapeHtml].
    intros c Hin.
    pose proof (filter_nil_In is_markup _ c (markup_escapeHtml text) Hin) as Hm.
    unfold is_markup in Hm.
    apply orb_false_elim in Hm as [Hm Hq]. apply orb_false_elim in Hm as [Hl Hg].
    apply N.eqb_neq in Hl, Hg, Hq. auto.
  - intros data. split; [|split; [apply markup_message | apply entities_only_message]].
    rewrite buildTelegramMessage_shape.
    rewrite <- (@issue_entries_numbered (firstn 5 (issues data)) 1 5)
      by (rewrite length_firstn; lia).
    unfold message_header, message_footer.
    repeat rewrite <- app_assoc. reflexivity.
Qed.

(** ** Diagnostics of the request handler *)



Lemma issue_message_truncated_to_80_witness :
  shortMessage (sample_issue long_text) = firstn 80 long_text ++ lit "..." /\
  List.length (shortMessage (sample_issue long_text)) = 83 /\
  buildTelegramMessage
    (with_issues (sample_payload [sample_issue long_text])
       [sample_issue (firstn 80 long_text ++ lit "and more")])
  = buildTelegramMessage (sample_payload [sample_issue long_text]).
Proof.
  destruct (@issue_message_truncated_to_80
              (sample_payload [sample_issue long_text]) 0 (sample_issue long_text)
              eq_refl ltac:(lia)) as (_ & Hsame & _ & H).
  assert (Hlong : 80 < List.length (message (sample_issue long_text)))
    by (cbn; lia).
  destruct (H Hlong) as [H1 H2].
  split; [exact H1|]. split; [exact H2|].
  apply (Hsame (sample_issue (firstn 80 long_text ++ lit "and more")));
    try reflexivity.
  cbn. lia.
Defined.

End TelegramFacts.

(** * Further facts about the CodeDiff page *)

Module ViewerFacts.
Import Regex CodeDiff Viewer StringFacts RegexFacts CodeDiffFacts PageFacts.


(** The fetch handler lets no exception out, and once the URL is recognized
    it always ends with the loading flag off. *)
Theorem handleFetchDiff_never_throws diff2html net ui :
  fst (handleFetchDiff diff2html net ui) = Ok tt /\
  (parseMRUrl (mrUrl ui) <> None ->
   isLoading (snd (handleFetchDiff diff2html net ui)) = false).
Proof.
  destruct (parseMRUrl (mrUrl ui)) as [r|] eqn:Hp.
  - destruct (fetch_error net r) as [e|] eqn:Hf.
    + rewrite (handleFetchDiff_failed diff2html net ui Hp Hf). split; reflexivity.
    + rewrite (handleFetchDiff_succeeded diff2html net ui Hp Hf). split; reflexivity.
  - split; [|congruence].
    unfold handleFetchDiff. rewrite Hp. destruct (mrUrl ui); reflexivity.
Qed.

(** With an empty or unrecognized URL the handler only raises one destructive
    notice: the rest of the state is as before and the platforms are not
    asked. *)
Theorem handleFetchDiff_rejects_url ui :
  parseMRUrl (mrUrl ui) = None ->
  exists t,
    toast_destructive t = true /\
    (mrUrl ui = [] -> toast_title t = lit "MR URL required") /\
    (mrUrl ui <> [] -> toast_title t = lit "Invalid URL") /\
    forall diff2html net,
      handleFetchDiff diff2html net ui = (Ok tt, toast t ui).
Proof.
  intros Hp. unfold handleFetchDiff. rewrite Hp.
  destruct (mrUrl ui) as [|c u]; eexists; repeat split;
    try reflexivity; try congruence.
Qed.

Lemma handleFetchDiff_rejects_url_witness :
  exists t,
    toast_title t = lit "Invalid URL" /\
    handleFetchDiff no_render (sample_net true [] None)
      (sample_ui (lit "https://bitbucket.org/x/y/pull/1"))
    = (Ok tt, toast t (sample_ui (lit "https://bitbucket.org/x/y/pull/1"))).
Proof.
  destruct (@handleFetchDiff_rejects_url
              (sample_ui (lit "https://bitbucket.org/x/y/pull/1")) eq_refl)
    as (t & _ & _ & Ht & H).
  exists t. split; [apply Ht; discriminate | apply H].
Defined.



(** Selecting a file always makes it the selected file and never throws.  The
    rendered diff is replaced only when the file has a non-empty patch that
    diff2html renders; for a file without patch, or when diff2html throws,
    the diff of the previously selected file stays on display. *)
Theorem handleFileSelect_keeps_stale_diff
    (diff2html : OutputFormat -> jsstring -> option jsstring)
    (file : FileChange) (ui : UI) :
  let out := handleFileSelect diff2html file ui in
  fst out = Ok tt /\
  selectedFile (snd out) = Some file /\
  filesChanged (snd out) = filesChanged ui /\
  (truthy (patch file) = false ->
     diffHtml (snd out) = diffHtml ui /\ toasts (snd out) = toasts ui) /\
  (forall c p, patch file = Some (c :: p) ->
     match diff2html (outputFormatOf (viewMode ui))
             (diffStringOf (c :: p) (filename file)) with
     | Some h => diffHtml (snd out) = h /\ toasts (snd out) = toasts ui
     | None =>
         diffHtml (snd out) = diffHtml ui /\
         toasts (snd out) = toasts ui ++ [render_error_toast]
     end).
Proof.
  unfold handleFileSelect, bind, set_state, generateDiffHtmlOf.
  destruct (patch file) as [[|c p]|] eqn:Hp; cbn [truthy].
  - repeat split; intros; discriminate.
  - destruct (diff2html (outputFormatOf (viewMode ui))
                (diffStringOf (c :: p) (filename file))) as [h|] eqn:Hd;
      cbn [fst snd selectedFile filesChanged diffHtml toasts setSelectedFile
           setDiffHtml toast];
      (split; [reflexivity|]); (split; [reflexivity|]);
      (split; [reflexivity|]); (split; [discriminate|]);
      intros c' p' H; inversion H; subst c' p'; rewrite Hd; split; reflexivity.
  - repeat split; intros; discriminate.
Qed.

(** Changing the view mode stores the new mode, but the diff of the selected
    file is rendered again in the format of the mode that was active before
    the change: the display is one change behind. *)
Theorem handleViewModeChange_renders_previous_mode
    (diff2html : OutputFormat -> jsstring -> option jsstring)
    (mode : ViewMode) (ui : UI) (f : FileChange) (c : jschar) (p : jsstring) :
  selectedFile ui = Some f -> patch f = Some (c :: p) ->
  let out := handleViewModeChange diff2html mode ui in
  fst out = Ok tt /\
  viewMode (snd out) = mode /\
  match diff2html (outputFormatOf (viewMode ui))
          (diffStringOf (c :: p) (filename f)) with
  | Some h => diffHtml (snd out) = h
  | None =>
      diffHtml (snd out) = diffHtml ui /\
      toasts (snd out) = toasts ui ++ [render_error_toast]
  end.
Proof.
  intros Hs Hp. unfold handleViewModeChange, bind, set_state, generateDiffHtmlOf.
  rewrite Hs, Hp.
  destruct (diff2html (outputFormatOf (viewMode ui))
              (diffStringOf (c :: p) (filename f))); cbn; repeat split.
Qed.

Lemma handleViewModeChange_renders_previous_mode_witness :
  let ui := setSelectedFile (Some text_file) (sample_ui github_url) in
  let out := handleViewModeChange format_name unified ui in
  viewMode (snd out) = unified /\ diffHtml (snd out) = lit "side-by-side".
Proof.
  destruct (@handleViewModeChange_renders_previous_mode format_name unified
              (setSelectedFile (Some text_file) (sample_ui github_url))
              text_file 64%N (lit "@ -1 +1,2 @@") eq_refl eq_refl)
    as (_ & Hm & Hd).
  exact (conj Hm Hd).
Defined.

(** Without a selected file, or when the selected file has no patch, a view
    mode change writes the mode and nothing else. *)
Theorem handleViewModeChange_without_patch
    (diff2html : OutputFormat -> jsstring -> option jsstring)
    (mode : ViewMode) (ui : UI) :
  match selectedFile ui with
  | Some f => truthy (patch f) = false
  | None => True
  end ->
  handleViewModeChange diff2html mode ui = (Ok tt, setViewMode mode ui).
Proof.
  unfold handleViewModeChange, bind, set_state.
  destruct (selectedFile ui) as [f|]; [|reflexivity].
  destruct (patch f) as [[|c p]|]; cbn [truthy]; intros H;
    try reflexivity; discriminate H.
Qed.

Lemma handleViewModeChange_without_patch_witness :
  handleViewModeChange no_render unified
    (setSelectedFile (Some binary_file) (sample_ui github_url))
  = (Ok tt, setViewMode unified
              (setSelectedFile (Some binary_file) (sample_ui github_url))).
Proof.
  apply (@handleViewModeChange_without_patch no_render unified
           (setSelectedFile (Some binary_file) (sample_ui github_url))).
  reflexivity.
Defined.

(** A fetch asks the platform of the parsed URL, for the parsed owner,
    repository and number, and nothing else: two networks that answer those
    two requests alike give the same result. *)
Theorem handleFetchDiff_asks_parsed_platform_only
    (diff2html : OutputFormat -> jsstring -> option jsstring)
    (net1 net2 : Network) (ui : UI) (r : MrRef) :
  parseMRUrl (mrUrl ui) = Some r ->
  match platform r with
  | github =>
      github_pull net1 (owner r) (repo r) (mrNumber r)
        = github_pull net2 (owner r) (repo r) (mrNumber r) /\
      github_pull_files net1 (owner r) (repo r) (mrNumber r)
        = github_pull_files net2 (owner r) (repo r) (mrNumber r)
  | gitlab =>
      gitlab_merge_request net1 (owner r) (repo r) (mrNumber r)
        = gitlab_merge_request net2 (owner r) (repo r) (mrNumber r) /\
      gitlab_changes net1 (owner r) (repo r) (mrNumber r)
        = gitlab_changes net2 (owner r) (repo r) (mrNumber r)
  end ->
  handleFetchDiff diff2html net1 ui = handleFetchDiff diff2html net2 ui.
Proof.
  intros Hp H. unfold handleFetchDiff. rewrite Hp.
  destruct (mrUrl ui); [reflexivity|].
  destruct (platform r); destruct H as [H1 H2];
    [unfold fetchGitHubPR | unfold fetchGitLabMR]; rewrite H1, H2; reflexivity.
Qed.

Lemma handleFetchDiff_asks_parsed_platform_only_witness :
  handleFetchDiff no_render (sample_net true [] None) (sample_ui github_url)
  = handleFetchDiff no_render (sample_net true [] (Some [])) (sample_ui github_url).
Proof.
  apply (@handleFetchDiff_asks_parsed_platform_only no_render
           (sample_net true [] None) (sample_net true [] (Some []))
           (sample_ui github_url) github_ref eq_refl).
  split; reflexivity.
Defined.

(** ** A pull-request URL parses back to its parts *)

Lemma exec_from_skip re prev x t :
  match_here re [] prev (x :: t) = None ->
  exec_from re prev (x :: t) = exec_from re (Some x) t.
Proof. intros H. cbn [exec_from]. now rewrite H. Qed.

Lemma exec_from_here re prev s caps rest :
  match_here re [] prev s = Some (caps, rest) -> exec_from re prev s = Some caps.
Proof. intros H. destruct s; cbn [exec_from]; now rewrite H. Qed.

Lemma github_needs_g prev x t :
  x <> 103%N -> match_here githubRe [] prev (x :: t) = None.
Proof.
  intros H. unfold githubRe. cbn [match_here].
  change (lit "github.com/") with (103%N :: lit "ithub.com/").
  now rewrite strip_prefix_head.
Qed.

(** For a reference with a GitHub platform, owner and repository without
    [/] and a number of digits, the URL [https://github.com/owner/repo/pull/
    number], followed by anything that does not start with a digit, resolves
    to that reference. *)
Theorem parseMRUrl_github_round_trip (r : MrRef) (post : jsstring) :
  platform r = github -> well_formed r -> stops is_digit post ->
  parseMRUrl (lit "https://" ++ shape_text r ++ post) = Some r.
Proof.
  intros Hp (Ho & Hr & Hn) Hs.
  destruct r as [pl o rp n]. cbn [platform owner repo mrNumber] in *. subst pl.
  unfold parseMRUrl, exec.
  assert (He : exec_from githubRe None
                 (lit "https://" ++ shape_text
                    {| platform := github; owner := o; repo := rp; mrNumber := n |}
                    ++ post) = Some [o; rp; n]).
  { change (lit "https://") with [104; 116; 116; 112; 115; 58; 47; 47]%N.
    cbn [app].
    repeat (rewrite exec_from_skip by (apply github_needs_g; discriminate)).
    apply (@exec_from_here githubRe (Some 47%N) _ [o; rp; n] post).
    rewrite (match_here_re_of github (Some 47%N)).
    assert (Hm : shape_at (host_of github) (infix_of github)
                   (shape_text {| platform := github; owner := o; repo := rp;
                                  mrNumber := n |} ++ post)
                 = Some ([o; rp; n], post)).
    { apply (shape_at_iff (host_of github) (lit "pull/")).
      exists o, rp, n. split; [reflexivity|]. split.
      - unfold shape_text. cbn [platform owner repo mrNumber].
        repeat rewrite <- app_assoc. reflexivity.
      - auto. }
    exact Hm. }
  rewrite He. reflexivity.
Qed.

Lemma parseMRUrl_github_round_trip_witness :
  parseMRUrl (lit "https://" ++ shape_text github_ref ++ lit "/files")
  = Some github_ref.
Proof.
  apply parseMRUrl_github_round_trip.
  - reflexivity.
  - repeat split; try discriminate;
      repeat constructor; discriminate.
  - reflexivity.
Defined.

(** ** A merge-request URL parses back to its parts *)

Lemma exec_from_app_None re a b :
  (forall a1 a2 prev, a = a1 ++ a2 -> a2 <> [] ->
     match_here re [] prev (a2 ++ b) = None) ->
  (forall prev, exec_from re prev b = None) ->
  forall prev, exec_from re prev (a ++ b) = None.
Proof.
  induction a as [|x a IH]; intros Ha Hb prev; [apply Hb|].
  cbn [app]. rewrite exec_from_skip.
  - apply IH; [|exact Hb].
    intros a1 a2 prev' E Hne. apply (Ha (x :: a1) a2); [now rewrite E | exact Hne].
  - apply (Ha [] (x :: a)); [reflexivity | discriminate].
Qed.

Lemma slash_align : forall a b x y,
  Forall (fun c => c <> slash) a -> Forall (fun c => c <> slash) b ->
  a ++ slash :: x = b ++ slash :: y -> a = b /\ x = y.
Proof.
  induction a as [|c a IH]; intros [|d b] x y Ha Hb H; cbn [app] in H.
  - inversion H. split; reflexivity.
  - inversion H; subst d. inversion Hb; congruence.
  - inversion H; subst c. inversion Ha; congruence.
  - inversion H; subst d. inversion Ha; inversion Hb; subst.
    destruct (IH b x y) as [-> ->]; auto.
Qed.

Lemma slash_free_literal s :
  forallb (fun c => negb (c =? slash)%N) s = true -> Forall (fun c => c <> slash) s.
Proof.
  intros H. apply Forall_forall. intros c Hc E.
  rewrite forallb_forall in H. specialize (H c Hc). rewrite E in H. discriminate H.
Qed.

(** What a match of the GitHub pattern at the start of [s] says about [s]. *)
Lemma github_match_text prev s :
  match_here githubRe [] prev s <> None ->
  exists o r rest,
    segment o /\ segment r /\
    s = lit "github.com" ++ slash :: o ++ slash :: r ++ slash :: lit "pull/" ++ rest.
Proof.
  intros H. destruct (match_here githubRe [] prev s) as [[caps rest]|] eqn:E;
    [|congruence].
  change githubRe with (re_of github) in E.
  rewrite (match_here_re_of github prev s) in E.
  apply (shape_at_iff (host_of github) (lit "pull/")) in E
    as (o & r & n & _ & Hs & Ho & Hr & _).
  exists o, r, (n ++ rest). repeat split; try apply Ho; try apply Hr.
  rewrite Hs. reflexivity.
Qed.

Lemma no_github_in_owner o2 rp tail :
  o2 <> [] -> Forall (fun c => c <> slash) o2 -> segment rp ->
  forall prev,
    match_here githubRe [] prev
      (o2 ++ slash :: rp ++ slash :: lit "-/merge_requests/" ++ tail) = None.
Proof.
  intros Hne Ho [_ Hr] prev.
  destruct (match_here githubRe [] prev _) eqn:E; [exfalso|reflexivity].
  destruct (@github_match_text prev _ ltac:(rewrite E; discriminate))
    as (o' & r' & rest & [_ Ho'] & [_ Hr'] & Hs).
  apply slash_align in Hs as [_ Hs];
    [|exact Ho | now apply slash_free_literal].
  apply slash_align in Hs as [_ Hs]; [|exact Hr | exact Ho'].
  change (lit "-/merge_requests/" ++ tail)
    with ([45%N] ++ slash :: lit "merge_requests/" ++ tail) in Hs.
  apply slash_align in Hs as [_ Hs];
    [|now apply slash_free_literal | exact Hr'].
  discriminate Hs.
Qed.

Lemma no_github_in_repo rp2 n post :
  rp2 <> [] -> Forall (fun c => c <> slash) rp2 -> number n ->
  forall prev,
    match_here githubRe [] prev
      (rp2 ++ slash :: lit "-/merge_requests/" ++ n ++ post) = None.
Proof.
  intros Hne Hr [Hn1 Hn2] prev.
  destruct (match_here githubRe [] prev _) eqn:E; [exfalso|reflexivity].
  destruct (@github_match_text prev _ ltac:(rewrite E; discriminate))
    as (o' & r' & rest & [_ Ho'] & [_ Hr'] & Hs).
  apply slash_align in Hs as [_ Hs];
    [|exact Hr | now apply slash_free_literal].
  change (lit "-/merge_requests/" ++ n ++ post)
    with ([45%N] ++ slash :: lit "merge_requests" ++ slash :: n ++ post) in Hs.
  apply slash_align in Hs as [_ Hs];
    [|now apply slash_free_literal | exact Ho'].
  apply slash_align in Hs as [_ Hs];
    [|now apply slash_free_literal | exact Hr'].
  destruct n as [|d n]; [congruence|].
  inversion Hs; subst d. inversion Hn2; subst. discriminate.
Qed.

Lemma suffix_all (P : jschar -> Prop) a a1 a2 :
  Forall P a -> a = a1 ++ a2 -> Forall P a2.
Proof. intros H ->. now apply Forall_app in H. Qed.

Lemma no_github_after prev post :
  no_github_shape post -> exec_from githubRe prev post = None.
Proof.
  intros H. apply exec_from_None. intros pre suf E.
  destruct (match_here githubRe [] (last_of pre prev) suf) as [[caps rest]|] eqn:Em;
    [exfalso|reflexivity].
  change githubRe with (re_of github) in Em.
  rewrite (match_here_re_of github) in Em.
  apply (shape_at_iff (host_of github) (lit "pull/")) in Em
    as (o & r & n & _ & Hs & Ho & Hr & Hn & _).
  assert (Hoc : occurs post pre
                  {| platform := github; owner := o; repo := r; mrNumber := n |}
                  rest).
  { split; [|exact (conj Ho (conj Hr Hn))].
    rewrite E, Hs. unfold shape_text. cbn [platform owner repo mrNumber].
    repeat rewrite <- app_assoc. reflexivity. }
  specialize (H _ _ _ Hoc). discriminate H.
Qed.

Lemma gitlab_needs_g prev x t :
  x <> 103%N -> match_here gitlabRe [] prev (x :: t) = None.
Proof.
  intros H. unfold gitlabRe. cbn [match_here].
  change (lit "gitlab.com/") with (103%N :: lit "itlab.com/").
  now rewrite strip_prefix_head.
Qed.

(** For a reference with the GitLab platform, owner and repository without
    [/] and a number of digits, the URL [https://gitlab.com/owner/repo/-/
    merge_requests/number] resolves to that reference, whatever follows the
    number, provided it does not start with a digit and holds no GitHub
    pull-request shape. *)
Theorem parseMRUrl_gitlab_round_trip (r : MrRef) (post : jsstring) :
  platform r = gitlab -> well_formed r -> stops is_digit post ->
  no_github_shape post ->
  parseMRUrl (lit "https://" ++ shape_text r ++ post) = Some r.
Proof.
  intros Hp (Ho & Hr & Hn) Hs Hpost.
  destruct r as [pl o rp n]. cbn [platform owner repo mrNumber] in *. subst pl.
  unfold parseMRUrl, exec, shape_text. cbn [platform owner repo mrNumber host_of infix_of].
  assert (Hgh : exec_from githubRe None
                  (lit "https://" ++ (lit "gitlab.com/" ++ o ++ [slash] ++ rp
                     ++ lit "/-/merge_requests/" ++ n) ++ post) = None).
  { repeat rewrite <- app_assoc.
    change (lit "https://" ++ lit "gitlab.com/" ++ o ++ [slash] ++ rp
              ++ lit "/-/merge_requests/" ++ n ++ post)
      with ([104; 116; 116; 112; 115; 58; 47; 47; 103; 105; 116; 108; 97; 98;
             46; 99; 111; 109; 47]%N
            ++ o ++ slash :: rp ++ slash :: lit "-/merge_requests/" ++ n ++ post).
    cbn [app].
    repeat (rewrite exec_from_skip
              by first [apply github_needs_g; discriminate | reflexivity]).
    apply exec_from_app_None.
    { intros a1 a2 prev E Hne.
      apply no_github_in_owner; [exact Hne | | exact Hr].
      exact (@suffix_all _ _ _ _ (proj2 Ho) E). }
    intros prev. rewrite exec_from_skip by (apply github_needs_g; discriminate).
    apply exec_from_app_None.
    { intros a1 a2 prev' E Hne.
      apply no_github_in_repo; [exact Hne | | exact Hn].
      exact (@suffix_all _ _ _ _ (proj2 Hr) E). }
    intros prev'.
    change (slash :: lit "-/merge_requests/" ++ n ++ post)
      with ([47; 45; 47; 109; 101; 114; 103; 101; 95; 114; 101; 113; 117; 101;
             115; 116; 115; 47]%N ++ n ++ post).
    cbn [app].
    repeat (rewrite exec_from_skip
              by first [apply github_needs_g; discriminate | reflexivity]).
    apply exec_from_app_None; [|intros; now apply no_github_after].
    intros a1 a2 prev'' E Hne.
    pose proof (@suffix_all _ _ _ _ (proj2 Hn) E) as Hd.
    destruct a2 as [|d a2]; [congruence|]. cbn [app].
    apply github_needs_g. inversion Hd; subst. intros ->. discriminate. }
  rewrite Hgh.
  assert (Hgl : exec_from gitlabRe None
                  (lit "https://" ++ (lit "gitlab.com/" ++ o ++ [slash] ++ rp
                     ++ lit "/-/merge_requests/" ++ n) ++ post)
                = Some [o; rp; n]).
  { repeat rewrite <- app_assoc.
    change (lit "https://") with [104; 116; 116; 112; 115; 58; 47; 47]%N.
    cbn [app].
    repeat (rewrite exec_from_skip by (apply gitlab_needs_g; discriminate)).
    apply (@exec_from_here gitlabRe (Some 47%N) _ [o; rp; n] post).
    change gitlabRe with (re_of gitlab).
    rewrite (match_here_re_of gitlab (Some 47%N)).
    apply (shape_at_iff (host_of gitlab) (lit "-/merge_requests/")).
    exists o, rp, n. split; [reflexivity|]. split.
    - cbn [host_of]. repeat (rewrite <- app_assoc; cbn [app]). reflexivity.
    - auto. }
  rewrite Hgl. reflexivity.
Qed.

Lemma nothing_has_no_shape : no_github_shape [].
Proof.
  intros pre r post [E _]. exfalso.
  symmetry in E. apply app_eq_nil in E as [_ E].
  apply app_eq_nil in E as [E _]. unfold shape_text in E.
  apply app_eq_nil in E as [E _]. destruct (platform r); discriminate E.
Qed.

Lemma parseMRUrl_gitlab_round_trip_witness :
  parseMRUrl (lit "https://" ++ shape_text gitlab_ref ++ []) = Some gitlab_ref.
Proof.
  apply parseMRUrl_gitlab_round_trip.
  - reflexivity.
  - repeat split; try discriminate; repeat constructor; discriminate.
  - exact I.
  - exact nothing_has_no_shape.
Defined.

(** ** Bounds on the counts of the GitLab adapter *)

Lemma disjoint_filters (A : Type) (f g : A -> bool) (l : list A) :
  (forall x, f x && g x = false) ->
  List.length (filter f l) + List.length (filter g l) <= List.length l.
Proof.
  intros H. induction l as [|x l IH]; [reflexivity|].
  cbn [filter]. specialize (H x).
  destruct (f x), (g x); try discriminate H; cbn [List.length]; lia.
Qed.

Lemma single_prefix_exclusive line :
  single_prefix plus_sign line && single_prefix minus_sign line = false.
Proof.
  destruct line as [|x rest]; [reflexivity|]. cbn [single_prefix].
  destruct (N.eqb_spec x plus_sign) as [->|]; [|reflexivity].
  change (plus_sign =? minus_sign)%N with false.
  cbn [andb]. apply andb_false_r.
Qed.

(** No line is counted twice: the additions and deletions the GitLab adapter
    derives from a diff text are not negative and together do not exceed the
    number of lines of the text. *)
Theorem gitlab_counts_bounded (change : GitLabChange) (text : jsstring) :
  diff change = Some text ->
  (0 <= additions (gitlabFileChange change))%Z /\
  (0 <= deletions (gitlabFileChange change))%Z /\
  (additions (gitlabFileChange change) + deletions (gitlabFileChange change)
   <= Z.of_nat (List.length (split_lines text)))%Z.
Proof.
  intros Hd. cbn [gitlabFileChange additions deletions]. rewrite Hd.
  unfold additionsRe, deletionsRe.
  pose proof (@count_matches_lines plus_sign text plus_not_terminator) as Ha.
  pose proof (@count_matches_lines minus_sign text minus_not_terminator) as Hm.
  pose proof (@disjoint_filters _ (single_prefix plus_sign)
                (single_prefix minus_sign) (split_lines text)
                single_prefix_exclusive) as Hx.
  unfold count_single_prefix in *. lia.
Qed.

Lemma gitlab_counts_bounded_witness :
  (additions (gitlabFileChange (change_with_diff (Some scenario_diff)))
   + deletions (gitlabFileChange (change_with_diff (Some scenario_diff)))
   <= 5)%Z.
Proof.
  destruct (@gitlab_counts_bounded (change_with_diff (Some scenario_diff))
              scenario_diff eq_refl) as (_ & _ & H).
  exact H.
Defined.

End ViewerFacts.

(** * Further facts about the Telegram function *)

Module GatewayFacts.
Import Telegram TelegramNotions TelegramFacts.

(** ** [escapeHtml] as a substitution *)

Lemma escaped_unit_prefix c d e1 e2 r1 r2 :
  escaped_unit c e1 -> escaped_unit d e2 -> e1 ++ r1 = e2 ++ r2 ->
  c = d /\ r1 = r2.
Proof.
  intros H1 H2 H.
  destruct H1, H2; subst;
    cbn [lit list_ascii_of_string List.map N_of_ascii app] in H;
    inversion H; subst; try (split; reflexivity);
    try discriminate; try contradiction; congruence.
Qed.

Lemma escapeHtml_unit_not_nil c : escapeHtml [c] <> [].
Proof. destruct (escapeHtml_unit c); discriminate. Qed.

(** Different texts never have the same escaped form. *)
Theorem escapeHtml_injective (a b : jsstring) :
  escapeHtml a = escapeHtml b -> a = b.
Proof.
  revert b. induction a as [|c a IH]; intros [|d b] H.
  - reflexivity.
  - exfalso. rewrite (escapeHtml_cons d b) in H.
    change (escapeHtml []) with (@nil jschar) in H. symmetry in H.
    apply app_eq_nil in H as [H _]. now apply (escapeHtml_unit_not_nil d).
  - exfalso. rewrite (escapeHtml_cons c a) in H.
    change (escapeHtml []) with (@nil jschar) in H.
    apply app_eq_nil in H as [H _]. now apply (escapeHtml_unit_not_nil c).
  - rewrite (escapeHtml_cons c a), (escapeHtml_cons d b) in H.
    destruct (@escaped_unit_prefix c d _ _ _ _ (escapeHtml_unit c)
                (escapeHtml_unit d) H) as [-> Hr].
    f_equal. now apply IH.
Qed.

Lemma escapeHtml_injective_witness : lit "a<b" = lit "a<b".
Proof. apply escapeHtml_injective. reflexivity. Defined.

Lemma escapeHtml_unit_length c :
  1 <= List.length (escapeHtml [c]) <= 6.
Proof. destruct (escapeHtml_unit c); cbn; lia. Qed.

Lemma escapeHtml_length text :
  List.length text <= List.length (escapeHtml text) <= 6 * List.length text.
Proof.
  induction text as [|c text IH]; [cbn; lia|].
  rewrite escapeHtml_cons, length_app. cbn [List.length].
  pose proof (escapeHtml_unit_length c). lia.
Qed.

(** [escapeHtml] works one code unit at a time: it distributes over
    concatenation, leaves a text without [&], [<], [>] and double quote as it
    is, never shortens a text and makes it at most six times longer. *)
Theorem escapeHtml_characterwise (a b : jsstring) :
  escapeHtml (a ++ b) = escapeHtml a ++ escapeHtml b /\
  (forallb plain_char a = true -> escapeHtml a = a) /\
  List.length a <= List.length (escapeHtml a) <= 6 * List.length a.
Proof.
  split; [apply escapeHtml_app|]. split; [|apply escapeHtml_length].
  induction a as [|c a IH]; [reflexivity|].
  cbn [forallb]. intros H. apply andb_prop in H as [Hc Ha].
  rewrite escapeHtml_cons, (IH Ha).
  unfold plain_char in Hc. apply negb_true_iff in Hc.
  apply orb_false_elim in Hc as [Hc Hq]. apply orb_false_elim in Hc as [Hc Hg].
  apply orb_false_elim in Hc as [Hc Hl].
  apply N.eqb_neq in Hc, Hl, Hg, Hq.
  destruct (escapeHtml_unit c); try contradiction. reflexivity.
Qed.

(** The text of an issue takes at most 83 code units before escaping, and its
    line in the message at most 502. *)
Theorem issue_text_bounded (issue : ReviewIssue) :
  List.length (shortMessage issue) <= 83 /\
  List.length (issue_text issue) <= 502.
Proof.
  assert (H : List.length (shortMessage issue) <= 83).
  { unfold shortMessage.
    destruct (Nat.ltb_spec 80 (List.length (message issue))).
    - rewrite length_app, length_firstn.
      cbn [lit list_ascii_of_string List.map List.length]. lia.
    - lia. }
  split; [exact H|].
  unfold issue_text. rewrite !length_app.
  pose proof (escapeHtml_length (shortMessage issue)).
  cbn [lit list_ascii_of_string List.map List.length]. lia.
Qed.

(** The three counts of the message add up to the number of issues. *)
Theorem severity_counts_add_up (data : TelegramNotificationRequest) :
  List.length (filter (severity_is error) (issues data))
  + List.length (filter (severity_is warning) (issues data))
  + List.length (filter (severity_is info) (issues data))
  = List.length (issues data).
Proof.
  assert (Hs : forall a b,
             jseqb (severityName a) (severityName b)
             = match a, b with
               | error, error | warning, warning | info, info => true
               | _, _ => false
               end) by (intros [] []; reflexivity).
  induction (issues data) as [|i l IH]; [reflexivity|].
  cbn [filter]. unfold severity_is in *. rewrite !Hs.
  destruct (severity i); cbn [List.length]; lia.
Qed.

(** ** The answers of the request handler *)



(** The Bot API is not consulted for a preflight, when a secret is unset or
    when the body does not parse: the answer is then the same whatever the
    API would do, and a preflight is answered 200 without looking at the
    secrets. *)
Theorem serve_without_calling_telegram
    (env : Env) (req : Request)
    (send1 send2 : jsstring -> jsstring -> jsstring -> ApiOutcome) :
  jseqb (method req) (lit "OPTIONS") = true \/
  unset (TELEGRAM_BOT_TOKEN env) = true \/
  unset (TELEGRAM_CHAT_ID env) = true \/
  (exists e, body req = inl e) ->
  serve env send1 req = serve env send2 req /\
  (jseqb (method req) (lit "OPTIONS") = true ->
   serve env send1 req = {| http_status := 200; http_body := NoBody |}).
Proof.
  intros H. unfold serve.
  destruct (jseqb (method req) (lit "OPTIONS")); [split; reflexivity|].
  split; [|discriminate].
  destruct H as [H | H]; [discriminate H|].
  destruct (unset (TELEGRAM_BOT_TOKEN env)); [reflexivity|].
  destruct H as [H | H]; [discriminate H|].
  destruct (unset (TELEGRAM_CHAT_ID env)); [reflexivity|].
  destruct H as [H | [e H]]; [discriminate H|].
  rewrite H. reflexivity.
Qed.

Lemma serve_without_calling_telegram_witness :
  serve env_without_token accepting sample_request
  = serve env_without_token (refusing 401 (lit "Unauthorized")) sample_request.
Proof.
  apply (@serve_without_calling_telegram env_without_token sample_request
           accepting (refusing 401 (lit "Unauthorized"))).
  right; left; reflexivity.
Defined.

End GatewayFacts.

(** * Facts about the LLM configuration panel *)

Module LLMConfigFacts.
Import CodeDiff LLMConfig.

Lemma spread_no_holes l : no_holes l -> spread l = l.
Proof.
  intros H. induction l as [|x l IH]; [reflexivity|].
  cbn [spread List.map]. fold (spread l).
  rewrite IH by (intros s Hs; apply H; now right).
  destruct x; try reflexivity. exfalso. apply (H Hole); [now left | reflexivity].
Qed.

Lemma length_spread l : List.length (spread l) = List.length l.
Proof. apply length_map. Qed.

Lemma nth_error_spread_item l i p :
  nth_error l i = Some (Item p) -> nth_error (spread l) i = Some (Item p).
Proof.
  intros H. unfold spread. rewrite nth_error_map, H. reflexivity.
Qed.

Lemma assign_in_range : forall l i v,
  i < List.length l ->
  assign l i v = firstn i l ++ [v] ++ skipn (S i) l.
Proof.
  induction l as [|x l IH]; intros i v Hi; [simpl in Hi; lia|].
  destruct i as [|i]; [reflexivity|].
  cbn [assign firstn skipn app]. rewrite IH by (simpl in Hi; lia). reflexivity.
Qed.

Lemma assign_nil_length i v : List.length (assign [] i v) = S i.
Proof. induction i as [|i IH]; [reflexivity|]. cbn [assign List.length]. now rewrite IH. Qed.

Lemma assign_length : forall l i v,
  List.length (assign l i v) = Nat.max (List.length l) (S i).
Proof.
  induction l as [|x l IH]; intros i v.
  - rewrite assign_nil_length. reflexivity.
  - destruct i as [|i]; cbn [assign List.length]; [lia|]. rewrite IH. lia.
Qed.

Lemma assign_nth_same : forall l i v, nth_error (assign l i v) i = Some v.
Proof.
  induction l as [|x l IH]; intros i v.
  - induction i as [|i IHi]; [reflexivity|]. exact IHi.
  - destruct i as [|i]; [reflexivity|]. cbn [assign nth_error]. apply IH.
Qed.

Lemma assign_nil_holes : forall i v j, j < i -> nth_error (assign [] i v) j = Some Hole.
Proof.
  induction i as [|i IH]; intros v j Hj; [lia|].
  destruct j as [|j]; [reflexivity|]. cbn [assign nth_error]. apply IH. lia.
Qed.

Lemma assign_past_end_holes : forall l i v j,
  List.length l <= j -> j < i -> nth_error (assign l i v) j = Some Hole.
Proof.
  induction l as [|x l IH]; intros i v j Hl Hj.
  - now apply assign_nil_holes.
  - destruct i as [|i]; [lia|]. destruct j as [|j]; [simpl in Hl; lia|].
    cbn [assign nth_error]. apply IH; simpl in Hl; lia.
Qed.

(** When the chosen provider has models, the second [updateProvider] of the
    select's handler starts again from the render's configuration and its
    [setConfig] replaces the first one: the state ends as if only the model
    had been set, and the entry keeps the provider it had. *)
Theorem provider_change_keeps_old_provider
    (c : ProjectLLMConfig) (index : nat) (value first : jsstring)
    (rest : list jsstring) (p : LLMProvider) :
  available_models value = first :: rest ->
  nth_error (llm_providers c) index = Some (Item p) ->
  let after := fire (fun cfg => onProviderChange cfg index value) (Some c) in
  after = fire (fun cfg => updateProvider cfg index f_model (VString first)) (Some c) /\
  exists p',
    element (providers_of after) index = Some p' /\
    provider p' = provider p /\
    model p' = Some (VString first).
Proof.
  intros Hm Hn after. subst after.
  unfold fire, onProviderChange. rewrite Hm. split; [reflexivity|].
  cbn [updateProvider providers_of with_providers llm_providers].
  unfold element at 1. rewrite assign_nth_same.
  eexists. split; [reflexivity|].
  unfold element. rewrite (nth_error_spread_item _ _ Hn). split; reflexivity.
Qed.

Lemma provider_change_keeps_old_provider_witness :
  exists p',
    element
      (providers_of
         (fire (fun cfg => onProviderChange cfg 0 (lit "openai")) (Some sample_config)))
      0 = Some p' /\
    provider p' = Some (VString (lit "gemini")) /\
    model p' = Some (VString (lit "gpt-4o")).
Proof.
  destruct (@provider_change_keeps_old_provider sample_config 0 (lit "openai")
              (lit "gpt-4o") [lit "gpt-4-turbo"; lit "gpt-4"; lit "gpt-3.5-turbo"]
              newProvider eq_refl eq_refl) as [_ (p' & H1 & H2 & H3)].
  exists p'. repeat split; assumption.
Defined.

Lemma filter_other_past : forall l from index,
  no_holes l -> index < from -> filter_other l from index = l.
Proof.
  induction l as [|x l IH]; intros from index Hn Hi; [reflexivity|].
  assert (Hl : no_holes l) by (intros s Hs; apply Hn; now right).
  assert (Hx : x <> Hole) by (apply Hn; now left).
  cbn [filter_other]. destruct (Nat.eqb_spec from index); [lia|].
  rewrite IH by (auto; lia). destruct x; try reflexivity; try contradiction.
Qed.

Lemma filter_other_drop : forall l from i,
  no_holes l ->
  filter_other l from (from + i) = firstn i l ++ skipn (S i) l.
Proof.
  induction l as [|x l IH]; intros from i Hn.
  - destruct i; reflexivity.
  - assert (Hl : no_holes l) by (intros s Hs; apply Hn; now right).
    assert (Hx : x <> Hole) by (apply Hn; now left).
    cbn [filter_other]. destruct i as [|i].
    + rewrite Nat.add_0_r, Nat.eqb_refl.
      rewrite filter_other_past by (auto; lia).
      destruct x; try reflexivity; try contradiction.
    + destruct (Nat.eqb_spec from (from + S i)); [lia|].
      replace (from + S i) with (S from + i) by lia.
      rewrite IH by assumption.
      destruct x; try reflexivity; try contradiction.
Qed.

Lemma filter_other_drop0 l i :
  no_holes l -> filter_other l 0 i = firstn i l ++ skipn (S i) l.
Proof. intros Hn. exact (@filter_other_drop l 0 i Hn). Qed.

(** On a list without holes, [removeProvider] drops exactly the entry at
    [index] and keeps the others in order; with [index] past the end the
    configuration is written back unchanged. *)
Theorem removeProvider_drops_one (c : ProjectLLMConfig) (index : nat) :
  no_holes (llm_providers c) ->
  fire (fun cfg => removeProvider cfg index) (Some c)
  = Some (with_providers c
            (firstn index (llm_providers c) ++ skipn (S index) (llm_providers c))) /\
  (List.length (llm_providers c) <= index ->
   fire (fun cfg => removeProvider cfg index) (Some c) = Some c).
Proof.
  intros Hn. unfold fire, removeProvider. cbv zeta.
  rewrite (@filter_other_drop0 _ index Hn). split; [reflexivity|].
  intros Hl. rewrite firstn_all2, skipn_all2, app_nil_r by lia.
  destruct c; reflexivity.
Qed.

Lemma sample_no_holes : no_holes (llm_providers sample_config).
Proof. intros s [<- | []]. discriminate. Qed.

Lemma removeProvider_drops_one_witness :
  providers_of (fire (fun cfg => removeProvider cfg 0) (Some sample_config)) = [].
Proof.
  destruct (@removeProvider_drops_one sample_config 0 sample_no_holes) as [H _].
  rewrite H. reflexivity.
Defined.

(** Adding a provider and then removing the entry it was given restores the
    configuration, when the list had no holes. *)
Theorem add_then_remove_restores (c : ProjectLLMConfig) :
  no_holes (llm_providers c) ->
  fire (fun cfg => removeProvider cfg (List.length (llm_providers c)))
    (fire addProvider (Some c))
  = Some c.
Proof.
  intros Hn. unfold fire, addProvider, removeProvider. cbv zeta.
  cbn [llm_providers with_providers]. rewrite (spread_no_holes Hn).
  assert (Hn' : no_holes (llm_providers c ++ [Item newProvider])).
  { intros s Hs. apply in_app_or in Hs as [Hs | [<- | []]];
      [now apply Hn | discriminate]. }
  rewrite (@filter_other_drop0 _ (List.length (llm_providers c)) Hn').
  rewrite firstn_app, firstn_all, Nat.sub_diag. cbn [firstn].
  rewrite skipn_all2 by (rewrite length_app; simpl; lia).
  rewrite !app_nil_r. destruct c; reflexivity.
Qed.

Lemma add_then_remove_restores_witness :
  fire (fun cfg => removeProvider cfg 1) (fire addProvider (Some sample_config))
  = Some sample_config.
Proof. exact (@add_then_remove_restores sample_config sample_no_holes). Defined.

(** [updateProvider] on an existing entry changes that entry's field and
    nothing else: the list keeps its length and its other entries. *)
Theorem updateProvider_in_range
    (c : ProjectLLMConfig) (index : nat) (field : Field) (value : Value)
    (p : LLMProvider) :
  no_holes (llm_providers c) ->
  nth_error (llm_providers c) index = Some (Item p) ->
  fire (fun cfg => updateProvider cfg index field value) (Some c)
  = Some (with_providers c
            (firstn index (llm_providers c)
             ++ [Item (set_field (Some p) field value)]
             ++ skipn (S index) (llm_providers c))).
Proof.
  intros Hh Hn. unfold fire, updateProvider. cbv zeta.
  rewrite (spread_no_holes Hh). unfold element. rewrite Hn.
  rewrite assign_in_range; [reflexivity|].
  apply nth_error_Some. congruence.
Qed.

Lemma updateProvider_in_range_witness :
  providers_of
    (fire (fun cfg => updateProvider cfg 0 f_enabled (VBool false))
       (Some sample_config))
  = [Item (set_field (Some newProvider) f_enabled (VBool false))].
Proof.
  rewrite (@updateProvider_in_range sample_config 0 f_enabled (VBool false)
             newProvider sample_no_holes eq_refl).
  reflexivity.
Defined.

(** [updateProvider] with an index past the end makes the list [index + 1]
    long: the positions in between are holes and the new entry has the given
    field only. *)
Theorem updateProvider_past_end
    (c : ProjectLLMConfig) (index : nat) (field : Field) (value : Value) :
  List.length (llm_providers c) <= index ->
  let after :=
    providers_of (fire (fun cfg => updateProvider cfg index field value) (Some c)) in
  List.length after = S index /\
  element after index = Some (set_field None field value) /\
  (forall j, List.length (llm_providers c) <= j -> j < index ->
             nth_error after j = Some Hole).
Proof.
  intros Hl after. subst after. unfold fire, updateProvider. cbv zeta.
  cbn [providers_of with_providers llm_providers].
  assert (He : element (spread (llm_providers c)) index = None).
  { unfold element.
    rewrite (proj2 (nth_error_None (spread (llm_providers c)) index));
      [reflexivity | rewrite length_spread; lia]. }
  rewrite He. split; [|split].
  - rewrite assign_length, length_spread. lia.
  - unfold element. now rewrite assign_nth_same.
  - intros j Hj1 Hj2. apply assign_past_end_holes; [rewrite length_spread; lia | lia].
Qed.

Lemma updateProvider_past_end_witness :
  List.length
    (providers_of
       (fire (fun cfg => updateProvider cfg 3 f_model (VString (lit "gpt-4")))
          (Some sample_config)))
  = 4.
Proof.
  destruct (@updateProvider_past_end sample_config 3 f_model
              (VString (lit "gpt-4")) ltac:(simpl; lia)) as [H _].
  exact H.
Defined.

(** Toggling the visibility of a key flips it for that entry and leaves the
    other entries alone; toggling twice shows what was shown before. *)
Theorem toggleApiKeyVisibility_flips (v : Visibility) (index k : nat) :
  shown (toggleApiKeyVisibility v index) index = negb (shown v index) /\
  (k <> index -> toggleApiKeyVisibility v index k = v k) /\
  shown (toggleApiKeyVisibility (toggleApiKeyVisibility v index) index) k
  = shown v k.
Proof.
  unfold toggleApiKeyVisibility, shown. rewrite !Nat.eqb_refl. split; [reflexivity|].
  split.
  - intros Hk. apply Nat.eqb_neq in Hk. now rewrite Hk.
  - destruct (Nat.eqb_spec k index) as [->|]; [|reflexivity].
    rewrite negb_involutive. reflexivity.
Qed.

(** Saving does nothing at all without a configuration.  With one, it always
    ends with the saving flag off; the edited configuration is replaced only
    by the backend's answer to a successful save, and a refused or failed
    save raises one destructive notice and leaves it as it was. *)
Theorem saveConfiguration_keeps_edits_on_failure
    (post : jsstring -> jsstring -> list Slot -> jsstring -> Answer) (p : Panel) :
  (config p = None -> saveConfiguration post p = p) /\
  (forall c, config p = Some c ->
     let after := saveConfiguration post p in
     isSaving after = false /\ isLoading after = isLoading p /\
     match post (project_id c) (project_name c) (llm_providers c)
             (default_provider c) with
     | Answered true data =>
         config after = Some data /\ notices after = notices p ++ [saved_toast]
     | _ =>
         config after = Some c /\
         exists t, toast_destructive t = true /\ notices after = notices p ++ [t]
     end).
Proof.
  unfold saveConfiguration. split.
  - intros H. now rewrite H.
  - intros c H. rewrite H. cbv zeta.
    destruct (post _ _ _ _) as [e|[|] data]; cbn; repeat split; try assumption;
      eexists; (split; [|reflexivity]); reflexivity.
Qed.

(** Loading always ends with the loading flag off; a refused or failed load
    keeps the configuration the panel had (none, on the first load) and
    raises one destructive notice. *)
Theorem loadConfiguration_keeps_config_on_failure (get : Answer) (p : Panel) :
  let after := loadConfiguration get p in
  isLoading after = false /\ isSaving after = isSaving p /\
  match get with
  | Answered true data => config after = Some data /\ notices after = notices p
  | _ =>
      config after = config p /\
      exists t, toast_destructive t = true /\ notices after = notices p ++ [t]
  end.
Proof.
  unfold loadConfiguration.
  destruct get as [e|[|] data]; cbn; repeat split;
    eexists; (split; [|reflexivity]); reflexivity.
Qed.

End LLMConfigFacts.

(** * Facts about token verification *)

Module SettingsFacts.
Import CodeDiff Settings.

(** Without a GitLab token nothing is asked and only a notice is raised.  With
    one, the typed token goes to the token store exactly when GitLab answered
    with a success status and a body that parses; the page shows the token
    as verified, with the connected notice, exactly when in addition that
    body is not [null].  On a [null] body the token is stored and the page
    ends not verified with the failure notice, because the user name is read
    after the token is stored; in every other case nothing is stored, the
    page ends not verified and the failure notice is raised.  The GitHub side of
    the page is never touched, and the verifying flag is off at the end. *)
Theorem verifyGitlabToken_stores_accepted_only
    (api : jsstring -> UserAnswer) (p : Page) :
  let after := verifyGitlabToken api p in
  let token := localGitlabToken p in
  let failure :=
    {| toast_title := lit "Verification failed";
       toast_description :=
         lit "Invalid GitLab token. Please check and try again.";
       toast_destructive := true |} in
  (token = [] ->
     after
     = notify {| toast_title := lit "Token required";
                 toast_description := lit "Please enter your GitLab token first.";
                 toast_destructive := true |} p) /\
  (token <> [] ->
     verifyingGitlab after = false /\
     match api token with
     | Responded true (JsonValue name) =>
         gitlabVerified after = true /\
         gitlabTokenWrites after = gitlabTokenWrites p ++ [token] /\
         notices after
         = notices p
           ++ [ {| toast_title := lit "GitLab connected";
                   toast_description :=
                     lit "Successfully connected as "
                       ++ match name with
                          | Some s => s
                          | None => lit "undefined"
                          end;
                   toast_destructive := false |} ]
     | Responded true JsonNull =>
         gitlabVerified after = false /\
         gitlabTokenWrites after = gitlabTokenWrites p ++ [token] /\
         notices after = notices p ++ [failure]
     | _ =>
         gitlabVerified after = false /\
         gitlabTokenWrites after = gitlabTokenWrites p /\
         notices after = notices p ++ [failure]
     end) /\
  githubVerified after = githubVerified p /\
  githubTokenWrites after = githubTokenWrites p /\
  localGitlabToken after = localGitlabToken p.
Proof.
  unfold verifyGitlabToken.
  destruct (localGitlabToken p) as [|c t] eqn:Ht.
  - cbn. rewrite Ht. repeat split; congruence.
  - cbv zeta. split; [discriminate|].
    destruct (api (c :: t)) as [|[|] [| |[name|]]]; cbn; rewrite ?Ht;
      repeat split.
Qed.

Lemma verifyGitlabToken_stores_accepted_only_witness :
  gitlabVerified (verifyGitlabToken null_user sample_page) = false /\
  gitlabTokenWrites (verifyGitlabToken null_user sample_page) = [lit "glpat-1"].
Proof.
  destruct (@verifyGitlabToken_stores_accepted_only null_user sample_page)
    as (_ & H & _).
  destruct (H ltac:(discriminate)) as (_ & Hv & Hw & _).
  exact (conj Hv Hw).
Defined.

(** Without a GitHub token nothing is asked and only a notice is raised.  With
    one, the typed token goes to the token store exactly when GitHub answered
    with a success status and a body that parses; the page shows the token
    as verified, with the connected notice, exactly when in addition that
    body is not [null].  On a [null] body the token is stored and the page
    ends not verified with the failure notice, because the user name is read
    after the token is stored; in every other case nothing is stored, the
    page ends not verified and the failure notice is raised.  The GitLab side of
    the page is never touched, and the verifying flag is off at the end. *)
Theorem verifyGithubToken_stores_accepted_only
    (api : jsstring -> UserAnswer) (p : Page) :
  let after := verifyGithubToken api p in
  let token := localGithubToken p in
  let failure :=
    {| toast_title := lit "Verification failed";
       toast_description :=
         lit "Invalid GitHub token. Please check and try again.";
       toast_destructive := true |} in
  (token = [] ->
     after
     = notify {| toast_title := lit "Token required";
                 toast_description := lit "Please enter your GitHub token first.";
                 toast_destructive := true |} p) /\
  (token <> [] ->
     verifyingGithub after = false /\
     match api token with
     | Responded true (JsonValue name) =>
         githubVerified after = true /\
         githubTokenWrites after = githubTokenWrites p ++ [token] /\
         notices after
         = notices p
           ++ [ {| toast_title := lit "GitHub connected";
                   toast_description :=
                     lit "Successfully connected as "
                       ++ match name with
                          | Some s => s
                          | None => lit "undefined"
                          end;
                   toast_destructive := false |} ]
     | Responded true JsonNull =>
         githubVerified after = false /\
         githubTokenWrites after = githubTokenWrites p ++ [token] /\
         notices after = notices p ++ [failure]
     | _ =>
         githubVerified after = false /\
         githubTokenWrites after = githubTokenWrites p /\
         notices after = notices p ++ [failure]
     end) /\
  gitlabVerified after = gitlabVerified p /\
  gitlabTokenWrites after = gitlabTokenWrites p /\
  localGithubToken after = localGithubToken p.
Proof.
  unfold verifyGithubToken.
  destruct (localGithubToken p) as [|c t] eqn:Ht.
  - cbn. rewrite Ht. repeat split; congruence.
  - cbv zeta. split; [discriminate|].
    destruct (api (c :: t)) as [|[|] [| |[name|]]]; cbn; rewrite ?Ht;
      repeat split.
Qed.

Lemma verifyGithubToken_stores_accepted_only_witness :
  githubVerified (verifyGithubToken null_user sample_page) = false /\
  githubTokenWrites (verifyGithubToken null_user sample_page) = [lit "ghp_1"].
Proof.
  destruct (@verifyGithubToken_stores_accepted_only null_user sample_page)
    as (_ & H & _).
  destruct (H ltac:(discriminate)) as (_ & Hv & Hw & _).
  exact (conj Hv Hw).
Defined.

End SettingsFacts.
